(** * The index manager of the secondary-index service

    A shallow embedding of [secondary/manager/manager.go]: the
    [IndexManager] life cycle (construction, leader-only services, close),
    the DDL entry points, the stability-timestamp keeper loop and the
    per-stream notification channels.

    Conventions.
    - A Go pointer is an [option] of a handle, [None] being [nil].
    - A Go [error] is an [option Error], [None] being [nil].
    - A [uint64] is a [Z] in [0, 2^64); conversions and subtraction wrap.
    - Calls into collaborators (repository, coordinator, clock) are
      recorded as [Effect]s; what a collaborator answers is an input of the
      operation that calls it.
    - The mutex of the manager serialises [Close], [startMasterService] and
      [stopMasterService]; operations are modelled as atomic steps. *)

From stdpp Require Import gmap strings list.
From Stdlib Require Import ZArith Lia.

Local Open Scope Z_scope.

(** ** Machine integers *)

Definition uint64_modulus : Z := 2 ^ 64.

(** [uint64(x)] for an [int64] (or any integer) [x]. *)
Definition to_uint64 (x : Z) : Z := x mod uint64_modulus.

(** [a - b] on [uint64]. *)
Definition sub64 (a b : Z) : Z := (a - b) mod uint64_modulus.

Definition bytes : Type := list Z.

(** ** Vbucket timestamps and their merge *)

Module TimestampList.

(** Modelled from the spec: the declaration of [TsVbuuid] is not in src.
    A vbucket timestamp is the triple (vbucket, sequenceNumber, epochId). *)
Record TsVbuuid : Type := mkTs {
  vbucket : Z;
  sequenceNumber : Z;
  epochId : Z
}.

(** Modelled from the spec: the pairwise merge behind [addTimestamp] is not
    in src. Merging two timestamps for the same vbucket keeps the one with
    the higher sequenceNumber, ties broken by the higher epochId. *)
Definition mergeTs (a b : TsVbuuid) : TsVbuuid :=
  if sequenceNumber a <? sequenceNumber b then b
  else if sequenceNumber b <? sequenceNumber a then a
  else if epochId a <? epochId b then b
  else a.

(** Modelled from the spec: a StabilityTimestamp is an ordered collection of
    [TsVbuuid], one entry per vbucket of a stream. *)
Definition StabilityTimestamp : Type := list TsVbuuid.

(** Modelled from the spec: merging one vbucket timestamp into a
    StabilityTimestamp: the entry of that vbucket, when there is one, is
    replaced by the pairwise merge; otherwise the report is appended. *)
Fixpoint mergeEntry (e : TsVbuuid) (s : StabilityTimestamp) : StabilityTimestamp :=
  match s with
  | [] => [e]
  | x :: r =>
      if vbucket x =? vbucket e then mergeTs x e :: r
      else x :: mergeEntry e r
  end.

(** Modelled from the spec: a raw report is a [TsVbuuid] tagged with its
    stream and bucket. *)
Record Report : Type := mkReport {
  rStreamId : Z;
  rBucket : string;
  rTs : TsVbuuid
}.

Definition reportKey (r : Report) : Z * string := (rStreamId r, rBucket r).

(** Modelled from the spec: [addTimestamp] is not in src. Each incoming
    report is merged into the in-memory StabilityTimestamp of its
    (StreamId, Bucket), with the per-vbucket rule above. *)
Definition addTimestamp (l : gmap (Z * string) (list TsVbuuid)) (r : Report)
  : gmap (Z * string) (list TsVbuuid) :=
  <[reportKey r := mergeEntry (rTs r) (default [] (l !! reportKey r))]> l.


(** The entry kept for a vbucket in a StabilityTimestamp. *)
Fixpoint findVb (vb : Z) (s : StabilityTimestamp) : option TsVbuuid :=
  match s with
  | [] => None
  | x :: r => if vbucket x =? vb then Some x else findVb vb r
  end.

Definition kept (l : gmap (Z * string) (list TsVbuuid)) (k : Z * string) (vb : Z)
  : option TsVbuuid :=
  findVb vb (default [] (l !! k)).



(** The order the merge rule decides by: sequenceNumber first, then epochId. *)
Definition tsLe (a b : TsVbuuid) : Prop :=
  sequenceNumber a < sequenceNumber b \/
  (sequenceNumber a = sequenceNumber b /\ epochId a <= epochId b).


Definition exAhead : Report := mkReport 1 "default" (mkTs 0 10 1).
Definition exLaterEpoch : Report := mkReport 1 "default" (mkTs 0 5 2).

End TimestampList.

(** ** Errors, opcodes and wire records *)

Inductive errCode : Type :=
| ERROR_MGR_DDL_CREATE_IDX
| ERROR_MGR_DDL_DROP_IDX.

Inductive errSeverity : Type := FATAL | NORMAL.

Inductive errCategory : Type := INDEX_MANAGER.

(** A non-nil Go [error]: one built by [NewError], or one handed back by a
    collaborator. [NewError] and its codes are declared outside manager.go;
    the value it builds has the fields of the [Error] struct of
    indexer/error.go, a cause being kept by its message. *)
Inductive Error : Type :=
| MgrError (code : errCode) (severity : errSeverity) (category : errCategory)
    (cause : option string) (msg : string)
| CollaboratorError (msg : string).

Definition NewError (code : errCode) (severity : errSeverity)
    (category : errCategory) (cause : option string) (msg : string) : Error :=
  MgrError code severity category cause msg.

(** The pair (value, err) of a Go call, read the way the callers read it:
    [err != nil] first. *)
Inductive result (A : Type) : Type :=
| Ok (a : A)
| Err (e : Error).

Arguments Ok {A} a.
Arguments Err {A} e.

Inductive OpCode : Type :=
| OPCODE_ADD_IDX_DEFN
| OPCODE_DEL_IDX_DEFN
| OPCODE_NOTIFY_TIMESTAMP.

(** [common.IndexDefn], with the fields manager.go reads. *)
Record IndexDefn : Type := mkIndexDefn {
  Bucket : string;
  Name : string
}.

(** [timestampSerializable], with the fields manager.go reads: the stream
    and the serialized timestamp. *)
Record timestampSerializable : Type := mkWrapper {
  StreamId : Z;
  Timestamp : bytes
}.

(** Handles of the collaborators the manager points to. *)
Definition MetadataRepo : Type := nat.
Definition Coordinator : Type := nat.
Definition requestHandler : Type := nat.
Definition eventManager : Type := nat.
Definition StreamManager : Type := nat.
Definition StreamAdmin : Type := nat.
Definition Timer : Type := nat.

(** The declarations of package [manager] that manager.go uses and that
    live in other files of the package: two constants, the codecs, the name
    of an index key, and the timestamp list with its merge. *)
Class PackageDecls : Type := {
  TIMESTAMP_NOTIFY_CH_SIZE : Z;
  TIMESTAMP_PERSIST_INTERVAL : Z;
  marshallIndexDefn : IndexDefn -> result bytes;
  indexName : string -> string -> string;
  timestampListSerializable : Type;
  createTimestampListSerializable : timestampListSerializable;
  addTimestamp :
    timestampListSerializable -> timestampSerializable -> timestampListSerializable;
  marshallTimestampSerializable : timestampSerializable -> result bytes;
  unmarshallTimestamp : bytes -> result TimestampList.TsVbuuid
}.

(** ** The manager *)

(** [IndexManager]; the mutex is not a field of the model. *)
Record IndexManager : Type := mkIndexManager {
  repo : option MetadataRepo;
  coordinator : option Coordinator;
  reqHandler : option requestHandler;
  eventMgr : option eventManager;
  streamMgr : option StreamManager;
  admin : option StreamAdmin;
  timer : option Timer;
  timestampCh : gmap Z nat;
  timekeeperStopCh : option nat;
  timestampPersistInterval : Z;
  isClosed : bool
}.

Definition set_streamMgr (v : option StreamManager) (m : IndexManager) : IndexManager :=
  mkIndexManager (repo m) (coordinator m) (reqHandler m) (eventMgr m)
    v (admin m) (timer m) (timestampCh m) (timekeeperStopCh m)
    (timestampPersistInterval m) (isClosed m).

Definition set_timer (v : option Timer) (m : IndexManager) : IndexManager :=
  mkIndexManager (repo m) (coordinator m) (reqHandler m) (eventMgr m)
    (streamMgr m) (admin m) v (timestampCh m) (timekeeperStopCh m)
    (timestampPersistInterval m) (isClosed m).

Definition set_timestampCh (v : gmap Z nat) (m : IndexManager) : IndexManager :=
  mkIndexManager (repo m) (coordinator m) (reqHandler m) (eventMgr m)
    (streamMgr m) (admin m) (timer m) v (timekeeperStopCh m)
    (timestampPersistInterval m) (isClosed m).

Definition set_timekeeperStopCh (v : option nat) (m : IndexManager) : IndexManager :=
  mkIndexManager (repo m) (coordinator m) (reqHandler m) (eventMgr m)
    (streamMgr m) (admin m) (timer m) (timestampCh m) v
    (timestampPersistInterval m) (isClosed m).

Definition set_timestampPersistInterval (v : Z) (m : IndexManager) : IndexManager :=
  mkIndexManager (repo m) (coordinator m) (reqHandler m) (eventMgr m)
    (streamMgr m) (admin m) (timer m) (timestampCh m) (timekeeperStopCh m)
    v (isClosed m).

Definition set_isClosed (v : bool) (m : IndexManager) : IndexManager :=
  mkIndexManager (repo m) (coordinator m) (reqHandler m) (eventMgr m)
    (streamMgr m) (admin m) (timer m) (timestampCh m) (timekeeperStopCh m)
    (timestampPersistInterval m) v.

(** A buffered channel of vbucket timestamps: its capacity and what is
    queued, oldest first. *)
Record Chan : Type := mkChan {
  chCap : Z;
  chBuf : list TimestampList.TsVbuuid
}.

(** [len(ch)]. *)
Definition chLen (c : Chan) : Z := Z.of_nat (length (chBuf c)).

(** The manager together with the channels [make] has allocated; [nextRef]
    is the next fresh reference. *)
Record World : Type := mkWorld {
  mgr : IndexManager;
  chans : gmap nat Chan;
  nextRef : nat
}.

Definition set_mgr (m : IndexManager) (w : World) : World :=
  mkWorld m (chans w) (nextRef w).

(** What a call of [notifyNewTimestamp] did with its timestamp. [Blocked]
    is a send on a channel that cannot take the value. *)
Inductive SendOutcome : Type := Sent | Dropped | Blocked.

Section Manager.
Context `{PackageDecls}.

(** Calls into collaborators, in program order. A call that answers records
    its answer. *)
Inductive Effect : Type :=
| RepoClose (r : MetadataRepo)
| CoordinatorTerminate (c : Coordinator)
| EventMgrClose (e : eventManager)
| ReqHandlerClose (h : requestHandler)
| StreamMgrClose (s : StreamManager)
| StreamMgrStartHandlingTopologyChange (s : StreamManager)
| TimerStopAll (t : Timer)
| ChanClose (c : nat)
| GoRunTimestampKeeper (t : option Timer) (stopCh : option nat) (interval : Z)
| GoCoordinatorRun (c : Coordinator)
| AdminInitialize (a : StreamAdmin)
| NewProjectorAdmin
| RepoGetStabilityTimestamps
| RepoSetStabilityTimestamps (ts : timestampListSerializable) (ok : bool)
| RepoDeleteMeta (key : string)
| CoordinatorNewRequest (id : Z) (op : OpCode) (key : string)
    (content : option bytes) (accepted : bool).

(** *** Close and the leader-only services *)

Definition IsClose (m : IndexManager) : bool := isClosed m.

Definition stopMasterServiceNoLock (m : IndexManager) : IndexManager * list Effect :=
  let '(m1, e1) :=
    match streamMgr m with
    | Some s => (set_streamMgr None m, [StreamMgrClose s])
    | None => (m, [])
    end in
  let '(m2, e2) :=
    match timer m1 with
    | Some t =>
        let m' := set_timer None m1 in
        match timekeeperStopCh m' with
        | Some c => (set_timekeeperStopCh None m', [TimerStopAll t; ChanClose c])
        | None => (m', [TimerStopAll t])
        end
    | None => (m1, [])
    end in
  (m2, e1 ++ e2).

Definition stopMasterService (m : IndexManager) : IndexManager * list Effect :=
  stopMasterServiceNoLock m.

(** The four guarded closes of [Close], in program order. *)
Definition closeCollaborators (m : IndexManager) : list Effect :=
  match repo m with Some r => [RepoClose r] | None => [] end ++
  match coordinator m with Some c => [CoordinatorTerminate c] | None => [] end ++
  match eventMgr m with Some e => [EventMgrClose e] | None => [] end ++
  match reqHandler m with Some h => [ReqHandlerClose h] | None => [] end.

Definition Close (m : IndexManager) : IndexManager * list Effect :=
  if isClosed m then (m, [])
  else
    let '(m1, e1) := stopMasterServiceNoLock m in
    (set_isClosed true m1, e1 ++ closeCollaborators m1).

(** [startMasterService]. [newStreamMgr] is what [NewStreamManager]
    answers, a nil manager coming with an error; [newTimer] and [make]
    return fresh references. The spawned goroutine is recorded with the
    timer, the stop channel and the interval it finds in the manager. *)
Definition startMasterService (newStreamMgr : result StreamManager) (w : World)
  : World * list Effect * option Error :=
  let t := nextRef w in
  let c := S t in
  let m1 := set_timestampPersistInterval TIMESTAMP_PERSIST_INTERVAL (mgr w) in
  let m2 := set_timer (Some t) m1 in
  let m3 := set_timekeeperStopCh (Some c) m2 in
  let spawn :=
    GoRunTimestampKeeper (timer m3) (timekeeperStopCh m3)
      (timestampPersistInterval m3) in
  let adm :=
    match admin m3 with
    | None => NewProjectorAdmin
    | Some a => AdminInitialize a
    end in
  match newStreamMgr with
  | Err e =>
      (mkWorld (set_streamMgr None m3) (chans w) (S c), [spawn; adm], Some e)
  | Ok s =>
      (mkWorld (set_streamMgr (Some s) m3) (chans w) (S c),
       [spawn; adm; StreamMgrStartHandlingTopologyChange s], None)
  end.

Definition SetTimestampPersistenceInterval (elapsed : Z) (m : IndexManager)
  : IndexManager :=
  set_timestampPersistInterval elapsed m.

(** [stabilityTimestampKey()] is declared outside manager.go. *)
Definition CleanupStabilityTimestamp (key : string) (m : IndexManager)
  : IndexManager * list Effect :=
  let '(m1, e1) := stopMasterServiceNoLock m in
  (m1, e1 ++ [RepoDeleteMeta key]).

(** [NewIndexManagerInternal]: the answers of [NewMetadataRepo],
    [NewRequestHandler] and [newEventManager] and the coordinator that
    [NewCoordinator] builds are inputs. *)
Definition NewIndexManagerInternal (adm : option StreamAdmin)
    (newRepo : result MetadataRepo) (newReqHandler : result requestHandler)
    (newEventMgr : result eventManager) (coord : Coordinator)
  : option World * list Effect * option Error :=
  match newRepo with
  | Err e => (None, [], Some e)
  | Ok r =>
      let m1 := mkIndexManager (Some r) None None None None adm None ∅ None 0 false in
      match newReqHandler with
      | Err e => (None, snd (Close m1), Some e)
      | Ok h =>
          let m2 :=
            mkIndexManager (Some r) None (Some h) None None adm None ∅ None 0 false in
          match newEventMgr with
          | Err e => (None, snd (Close m2), Some e)
          | Ok ev =>
              let m3 :=
                mkIndexManager (Some r) (Some coord) (Some h) (Some ev) None adm
                  None ∅ None 0 false in
              (Some (mkWorld m3 ∅ 0%nat), [GoCoordinatorRun coord], None)
          end
      end
  end.

(** *** DDL *)

(** [HandleCreateIndexDDL]: [now] is [time.Now().UnixNano()], [accepted]
    what [Coordinator.NewRequest] answers if it is called. *)
Definition HandleCreateIndexDDL (defn : IndexDefn) (now : Z) (accepted : bool)
  : option Error * list Effect :=
  match marshallIndexDefn defn with
  | Err e => (Some e, [])
  | Ok content =>
      let id := to_uint64 now in
      let call :=
        CoordinatorNewRequest id OPCODE_ADD_IDX_DEFN
          (indexName (Bucket defn) (Name defn)) (Some content) accepted in
      if negb accepted then
        (Some (NewError ERROR_MGR_DDL_CREATE_IDX NORMAL INDEX_MANAGER None
                 ("Fail to complete processing create index statement for index '"
                    +:+ Name defn +:+ "'")),
         [call])
      else (None, [call])
  end.


(** *** Notification channels *)

Definition GetStabilityTimestampChannel (streamId : Z) (w : World) : World * nat :=
  match timestampCh (mgr w) !! streamId with
  | Some ch => (w, ch)
  | None =>
      let ch := nextRef w in
      (mkWorld (set_timestampCh (<[streamId := ch]> (timestampCh (mgr w))) (mgr w))
               (<[ch := mkChan TIMESTAMP_NOTIFY_CH_SIZE []]> (chans w))
               (S ch),
       ch)
  end.

(** [ch <- v]: the value is queued when the buffer has room; otherwise, and
    on a channel that was never made, the sender blocks. *)
Definition chanSend (ch : nat) (v : TimestampList.TsVbuuid) (w : World)
  : option World :=
  match chans w !! ch with
  | Some c =>
      if chLen c <? chCap c
      then Some (mkWorld (mgr w) (<[ch := mkChan (chCap c) (chBuf c ++ [v])]> (chans w))
                         (nextRef w))
      else None
  | None => None
  end.

Definition notifyNewTimestamp (wrapper : timestampSerializable) (w : World)
  : World * SendOutcome :=
  let streamId := StreamId wrapper in
  match unmarshallTimestamp (Timestamp wrapper) with
  | Err _ => (w, Dropped)
  | Ok timestamp =>
      match timestampCh (mgr w) !! streamId with
      | Some ch =>
          match chans w !! ch with
          | Some c =>
              if chLen c <? TIMESTAMP_NOTIFY_CH_SIZE then
                match chanSend ch timestamp w with
                | Some w' => (w', Sent)
                | None => (w, Blocked)
                end
              else (w, Dropped)
          | None => (w, Blocked)
          end
      | None => (w, Dropped)
      end
  end.

(** A subscriber takes the oldest value of a channel. *)
Definition chanReceive (ch : nat) (w : World) : World :=
  match chans w !! ch with
  | Some c => mkWorld (mgr w) (<[ch := mkChan (chCap c) (tail (chBuf c))]> (chans w))
                      (nextRef w)
  | None => w
  end.

(** *** Runs of the manager *)

Inductive Op : Type :=
| OpStartMasterService (newStreamMgr : result StreamManager)
| OpStopMasterService
| OpClose
| OpCleanupStabilityTimestamp (key : string)
| OpSetTimestampPersistenceInterval (elapsed : Z)
| OpGetStabilityTimestampChannel (streamId : Z)
| OpNotifyNewTimestamp (wrapper : timestampSerializable)
| OpReceive (ch : nat).

Definition step (op : Op) (w : World) : World * list Effect :=
  match op with
  | OpStartMasterService r =>
      let '(w', e, _) := startMasterService r w in (w', e)
  | OpStopMasterService =>
      let '(m, e) := stopMasterService (mgr w) in (set_mgr m w, e)
  | OpClose =>
      let '(m, e) := Close (mgr w) in (set_mgr m w, e)
  | OpCleanupStabilityTimestamp key =>
      let '(m, e) := CleanupStabilityTimestamp key (mgr w) in (set_mgr m w, e)
  | OpSetTimestampPersistenceInterval v =>
      (set_mgr (SetTimestampPersistenceInterval v (mgr w)) w, [])
  | OpGetStabilityTimestampChannel sid =>
      (fst (GetStabilityTimestampChannel sid w), [])
  | OpNotifyNewTimestamp wrapper =>
      (fst (notifyNewTimestamp wrapper w), [])
  | OpReceive ch => (chanReceive ch w, [])
  end.

Definition runOps (ops : list Op) (w : World) : World :=
  foldl (fun w op => fst (step op w)) w ops.

(** The operations that assign [timestampPersistInterval]. *)
Definition assignsInterval (op : Op) : bool :=
  match op with
  | OpStartMasterService _ | OpSetTimestampPersistenceInterval _ => true
  | _ => false
  end.

(** The worlds a constructed manager can be in. *)
Inductive reachable : World -> Prop :=
| reachable_new adm newRepo newReqHandler newEventMgr coord w e :
    NewIndexManagerInternal adm newRepo newReqHandler newEventMgr coord
      = (Some w, e, None) ->
    reachable w
| reachable_step op w :
    reachable w -> reachable (fst (step op w)).

(** The stop channel exists only beside a timer. *)
Definition servicesPaired (m : IndexManager) : Prop :=
  timer m = None -> timekeeperStopCh m = None.

(** Every registered channel was made with the notification capacity. *)
Definition channelsSized (w : World) : Prop :=
  forall sid ch, timestampCh (mgr w) !! sid = Some ch ->
    exists c, chans w !! ch = Some c /\ chCap c = TIMESTAMP_NOTIFY_CH_SIZE.

End Manager.

(** ** The timestamp keeper *)

(** What one pass of the loop body meets: the report taken from the timer's
    channel, the persist interval as the manager holds it at that moment,
    the three clock readings, whether [SetStabilityTimestamps] returns nil
    and what [NewRequest] answers, each used only if the body gets there. *)
Record Iteration : Type := mkIteration {
  itReport : timestampSerializable;
  itInterval : Z;
  itNow : Z;
  itSetOk : bool;
  itSavedAt : Z;
  itRequestAt : Z;
  itAccepted : bool
}.

(** What the [select] of the loop takes. *)
Inductive Selected : Type :=
| StopSignal
| InboundClosed
| Inbound (it : Iteration).

Section Keeper.
Context `{PackageDecls}.

(** The variables of [runTimestampKeeper]. *)
Record Keeper : Type := mkKeeper {
  timestamps : timestampListSerializable;
  persistTimestamp : bool;
  lastPersistTime : Z
}.

(** The loop's start: [startAt] is the clock, [saved] what
    [GetStabilityTimestamps] answers. *)
Definition keeperInit (startAt : Z) (saved : result timestampListSerializable)
  : Keeper :=
  mkKeeper
    (match saved with
     | Ok ts => ts
     | Err _ => createTimestampListSerializable
     end)
    true
    (to_uint64 startAt).

(** [persistTimestamp || uint64(now) - lastPersistTime > interval]. *)
Definition persistDue (it : Iteration) (k : Keeper) : bool :=
  persistTimestamp k || (itInterval it <? sub64 (to_uint64 (itNow it)) (lastPersistTime k)).

(** The notification the body submits after the persist block. *)
Definition notifyRequest (it : Iteration) : list Effect :=
  match marshallTimestampSerializable (itReport it) with
  | Err _ => []
  | Ok data =>
      [CoordinatorNewRequest (to_uint64 (itRequestAt it)) OPCODE_NOTIFY_TIMESTAMP
         "Stability Timestamp" (Some data) (itAccepted it)]
  end.

(** The closure run for each report. *)
Definition keeperBody (it : Iteration) (k : Keeper) : Keeper * list Effect :=
  let ts := addTimestamp (timestamps k) (itReport it) in
  let persist := persistDue it k in
  let '(k', e) :=
    if persist then
      if itSetOk it
      then (mkKeeper ts false (to_uint64 (itSavedAt it)),
            [RepoSetStabilityTimestamps ts true])
      else (mkKeeper ts persist (lastPersistTime k),
            [RepoSetStabilityTimestamps ts false])
    else (mkKeeper ts persist (lastPersistTime k), []) in
  (k', e ++ notifyRequest it).

(** The loop over what its [select] takes, one after the other. The flag
    of the result says whether the loop has returned; a run that used up
    its list is waiting in [select]. *)
Fixpoint keeperLoop (sel : list Selected) (k : Keeper)
  : Keeper * list Effect * bool :=
  match sel with
  | [] => (k, [], false)
  | StopSignal :: _ => (k, [], true)
  | InboundClosed :: _ => (k, [], true)
  | Inbound it :: rest =>
      let '(k1, e1) := keeperBody it k in
      let '(k2, e2, returned) := keeperLoop rest k1 in
      (k2, e1 ++ e2, returned)
  end.

Definition runTimestampKeeper (startAt : Z)
    (saved : result timestampListSerializable) (sel : list Selected)
  : Keeper * list Effect * bool :=
  let '(k, e, returned) := keeperLoop sel (keeperInit startAt saved) in
  (k, RepoGetStabilityTimestamps :: e, returned).

(** *** Reading a run from outside *)

(** The keeper after the given passes. *)
Definition keeperAfter (k : Keeper) (its : list Iteration) : Keeper :=
  foldl (fun k it => fst (keeperBody it k)) k its.

(** The calls of [SetStabilityTimestamps], those that returned nil, the
    requests to the coordinator, and the timestamp notifications among them. *)
Definition isPersistCall (e : Effect) : bool :=
  match e with RepoSetStabilityTimestamps _ _ => true | _ => false end.

Definition isPersistOk (e : Effect) : bool :=
  match e with RepoSetStabilityTimestamps _ true => true | _ => false end.

Definition isRequest (e : Effect) : bool :=
  match e with CoordinatorNewRequest _ _ _ _ _ => true | _ => false end.

Definition isNotifyRequest (e : Effect) : bool :=
  match e with
  | CoordinatorNewRequest _ OPCODE_NOTIFY_TIMESTAMP _ _ _ => true
  | _ => false
  end.

(** Whether a pass calls [SetStabilityTimestamps], whether that call
    succeeds, and whether the pass submits a notification. *)
Definition persistAttempted (it : Iteration) (k : Keeper) : bool :=
  existsb isPersistCall (snd (keeperBody it k)).

Definition persistSucceeded (it : Iteration) (k : Keeper) : bool :=
  existsb isPersistOk (snd (keeperBody it k)).

Definition notified (it : Iteration) (k : Keeper) : bool :=
  existsb isNotifyRequest (snd (keeperBody it k)).

(** What the repository holds after the given calls: the list of the last
    [SetStabilityTimestamps] that returned nil, if any. *)
Fixpoint repoHolds (held : option timestampListSerializable) (es : list Effect)
  : option timestampListSerializable :=
  match es with
  | [] => held
  | RepoSetStabilityTimestamps ts true :: rest => repoHolds (Some ts) rest
  | _ :: rest => repoHolds held rest
  end.

(** The history of persists, read off the calls of the passes so far:
    [None] before any call, else whether the latest call succeeded. *)
Fixpoint latestPersist (es : list Effect) (acc : option bool) : option bool :=
  match es with
  | [] => acc
  | RepoSetStabilityTimestamps _ ok :: rest => latestPersist rest (Some ok)
  | _ :: rest => latestPersist rest acc
  end.

(** A persist is owed when none was tried yet or the latest one failed. *)
Definition persistOwed (es : list Effect) : bool :=
  match latestPersist es None with
  | None => true
  | Some ok => negb ok
  end.

(** The passes of a run with the effects of each. *)
Fixpoint passLog (its : list Iteration) (k : Keeper)
  : list (Iteration * list Effect) :=
  match its with
  | [] => []
  | it :: rest =>
      (it, snd (keeperBody it k)) :: passLog rest (fst (keeperBody it k))
  end.

(** The clock recorded by the latest successful persist of a log, or the
    loop's start when there is none. *)
Fixpoint lastSavedAt (start : Z) (log : list (Iteration * list Effect)) : Z :=
  match log with
  | [] => start
  | (it, es) :: rest =>
      lastSavedAt
        (if existsb isPersistOk es then to_uint64 (itSavedAt it) else start)
        rest
  end.

(** *** The policy as the spec words it *)

(** The debounce of the spec, [shouldPersist(lastPersistTime, now, isFirst)]:
    at once on the first timestamp of a stream, afterwards only when the
    interval has elapsed since the last successful persist. *)
Definition shouldPersist (interval lastPersist now : Z) (isFirst : bool) : bool :=
  isFirst || (interval <? now - lastPersist).

(** Whether the report of a pass is the first of its stream in the run. *)
Definition firstOfStream (before : list Iteration) (it : Iteration) : bool :=
  negb (existsb (fun j => StreamId (itReport j) =? StreamId (itReport it)) before).

End Keeper.

(** ** A concrete package, for examples *)

(** A three-number encoding of a vbucket timestamp, for the examples only. *)
Definition exampleUnmarshall (b : bytes) : result TimestampList.TsVbuuid :=
  match b with
  | [vb; seqno; epoch] => Ok (TimestampList.mkTs vb seqno epoch)
  | _ => Err (CollaboratorError "malformed timestamp")
  end.

(** An instance of the package declarations for the examples: the list of
    timestamps is the keyed collection of [TimestampList], reports being
    decoded with [exampleUnmarshall]; a definition without a name does not
    marshal. *)
Definition exampleDecls : PackageDecls := {|
  TIMESTAMP_NOTIFY_CH_SIZE := 2;
  TIMESTAMP_PERSIST_INTERVAL := 100;
  marshallIndexDefn := fun d =>
    if String.eqb (Name d) "" then Err (CollaboratorError "no name")
    else Ok [1];
  indexName := fun b n => b +:+ "/" +:+ n;
  timestampListSerializable := gmap (Z * string) (list TimestampList.TsVbuuid);
  createTimestampListSerializable := ∅;
  addTimestamp := fun l t =>
    match exampleUnmarshall (Timestamp t) with
    | Ok ts => TimestampList.addTimestamp l (TimestampList.mkReport (StreamId t) "default" ts)
    | Err _ => l
    end;
  marshallTimestampSerializable := fun t => Ok (StreamId t :: Timestamp t);
  unmarshallTimestamp := exampleUnmarshall
|}.

(** A manager as [NewIndexManagerInternal] builds it, and the same once it
    became leader and a subscriber asked for the channel of stream 1. *)
Definition exampleNew : World :=
  mkWorld (mkIndexManager (Some 1%nat) (Some 2%nat) (Some 3%nat) (Some 4%nat)
             None None None ∅ None 0 false) ∅ 0%nat.

Definition exampleLeader : World :=
  runOps (H := exampleDecls)
    [OpStartMasterService (Ok 5%nat); OpGetStabilityTimestampChannel 1] exampleNew.

(** Reports of stream 1 and of stream 2, and passes of the keeper that meet
    them: the persist interval is 100 throughout. *)
Definition exampleReport1 : timestampSerializable := mkWrapper 1 [0; 10; 1].
Definition exampleReport2 : timestampSerializable := mkWrapper 2 [0; 7; 1].

Definition examplePass (r : timestampSerializable) (now : Z) (setOk : bool)
  : Iteration :=
  mkIteration r 100 now setOk (now + 1) (now + 2) true.

(** The keeper at its start, with nothing saved in the repository. *)
Definition exampleKeeper : Keeper (H := exampleDecls) :=
  keeperInit (H := exampleDecls) 0 (Err (CollaboratorError "not found")).

(** Stream 1 reports at time 10 and is saved; stream 2 reports its first
    timestamp at time 20. *)
Definition exampleSaved1 : Iteration := examplePass exampleReport1 10 true.
Definition exampleFirstOf2 : Iteration := examplePass exampleReport2 20 true.

(** Stream 1 reports at time 10 and the save fails; it reports again at
    time 20. *)
Definition exampleFailed1 : Iteration := examplePass exampleReport1 10 false.
Definition exampleAgain1 : Iteration := examplePass exampleReport1 20 true.

(** Stream 1 reports a later sequence number at time 20, within the persist
    interval of the save at time 10. *)
Definition exampleReport1Later : timestampSerializable := mkWrapper 1 [0; 12; 1].
Definition exampleUnsaved1 : Iteration := examplePass exampleReport1Later 20 true.

(** ** Runs of the manager with their calls *)

Section ManagerRuns.
Context `{PackageDecls}.

(** The world after a run of operations, with the calls it made in order. *)
Fixpoint runLog (ops : list Op) (w : World) : World * list Effect :=
  match ops with
  | [] => (w, [])
  | op :: rest =>
      let '(w1, e1) := step op w in
      let '(w2, e2) := runLog rest w1 in
      (w2, e1 ++ e2)
  end.

(** The calls that close one of the four collaborators of [Close]. *)
Definition isRepoClose (e : Effect) : bool :=
  match e with RepoClose _ => true | _ => false end.

Definition isCoordinatorTerminate (e : Effect) : bool :=
  match e with CoordinatorTerminate _ => true | _ => false end.

Definition isEventMgrClose (e : Effect) : bool :=
  match e with EventMgrClose _ => true | _ => false end.

Definition isReqHandlerClose (e : Effect) : bool :=
  match e with ReqHandlerClose _ => true | _ => false end.

Definition isCollaboratorClose (e : Effect) : bool :=
  isRepoClose e || isCoordinatorTerminate e || isEventMgrClose e
  || isReqHandlerClose e.

(** No leader-only service is there. *)
Definition servicesDown (m : IndexManager) : Prop :=
  streamMgr m = None /\ timer m = None /\ timekeeperStopCh m = None.

(** The references of the registered channels were all handed out. *)
Definition channelsAllocated (w : World) : Prop :=
  forall sid ch, timestampCh (mgr w) !! sid = Some ch -> (ch < nextRef w)%nat.

(** No two streams are registered with one channel. *)
Definition channelsApart (w : World) : Prop :=
  forall sid1 sid2 ch,
    timestampCh (mgr w) !! sid1 = Some ch ->
    timestampCh (mgr w) !! sid2 = Some ch ->
    sid1 = sid2.

(** Every channel that was made has the notification capacity and holds no
    more than that. *)
Definition channelsBounded (w : World) : Prop :=
  forall ch c, chans w !! ch = Some c ->
    chCap c = TIMESTAMP_NOTIFY_CH_SIZE /\
    chLen c <= Z.max 0 TIMESTAMP_NOTIFY_CH_SIZE.

(** No timer or stop channel the manager points to, and no reference still
    to be handed out, lies below [b]. *)
Definition refsFrom (b : nat) (w : World) : Prop :=
  (forall t, timer (mgr w) = Some t -> (b <= t)%nat) /\
  (forall c, timekeeperStopCh (mgr w) = Some c -> (b <= c)%nat) /\
  (b <= nextRef w)%nat.

(** The call stops the timer [r] or closes the stop channel [r]. *)
Definition endsService (r : nat) (e : Effect) : Prop :=
  e = TimerStopAll r \/ e = ChanClose r.

End ManagerRuns.

(** ** Runs of the keeper *)



Section KeeperRuns.
Context `{PackageDecls}.

(** The calls of the passes of a run, in order. *)
Definition passCalls (its : list Iteration) (k : Keeper) : list Effect :=
  concat (snd <$> passLog its k).


End KeeperRuns.

(** ** The key gatherer of tools/datapath.go *)

Module Datapath.

(** [int] arithmetic, with [int] taken 64 bits wide. *)
Definition wrap_int (x : Z) : Z := (x + 2 ^ 63) mod 2 ^ 64 - 2 ^ 63.

(** [protobuf.KeyVersions] and [protobuf.VbKeyVersions], as their getters
    show them: the document id and the keys as strings, the commands as
    [uint32]. *)
Record KeyVersions : Type := mkKeyVersions {
  Docid : string;
  Uuids : list Z;
  Keys : list string;
  Commands : list Z
}.

Record VbKeyVersions : Type := mkVbKeyVersions {
  Kvs : list KeyVersions
}.

(** The two command bytes of package [common] that datapath.go tests for. *)
Class CommandCodes : Type := {
  StreamBegin : Z;
  Upsert : Z
}.

(** The number of documents under the keys of one instance. *)
Definition docsOf (inner : gmap string (list string)) : nat :=
  sum_list_with (fun p => length (snd p)) (map_to_list inner).

(** [countKeysAndDocs], over the entries in the order [range] yields them. *)
Definition countKeysAndDocs (entries : list (string * list string)) : Z * Z :=
  foldl (fun acc entry =>
           (wrap_int (fst acc + 1),
            wrap_int (snd acc + Z.of_nat (length (snd entry)))))
        (0, 0) entries.

Section Gather.
Context `{CommandCodes}.

(** The two statements that put [docid] under [keys[uuid][key]]; [None] is
    the panic of a write into the nil map that [keys[uuid]] is for an
    instance without an entry. The maps passed in are taken to be made, and
    the inner maps of different instances to be different maps. *)
Definition appendDoc (uuid : Z) (key docid : string)
    (keys : gmap Z (gmap string (list string)))
  : option (gmap Z (gmap string (list string))) :=
  match keys !! uuid with
  | None => None
  | Some inner =>
      Some (<[uuid := <[key := default [] (inner !! key) ++ [docid]]> inner]> keys)
  end.

(** Whether a command gets past both tests to the upsert branch. *)
Definition isUpsert (command : Z) : bool :=
  negb (command mod 256 =? StreamBegin) && (command mod 256 =? Upsert).

(** The body of the innermost loop, for the command at index [i]; [None] is
    a panic: an index out of range, or the write of [appendDoc]. *)
Definition gatherCommand (docid : string) (uuids : list Z) (seckeys : list string)
    (i : nat) (command : Z)
    (st : gmap Z Z * gmap Z (gmap string (list string)))
  : option (gmap Z Z * gmap Z (gmap string (list string))) :=
  let cmd := command mod 256 in
  let commandWise := <[cmd := wrap_int (default 0 (fst st !! cmd) + 1)]> (fst st) in
  if cmd =? StreamBegin then Some (commandWise, snd st)
  else if cmd =? Upsert then
    match uuids !! i with
    | None => None
    | Some uuid =>
        match seckeys !! i with
        | None => None
        | Some key =>
            match appendDoc uuid key docid (snd st) with
            | None => None
            | Some keys => Some (commandWise, keys)
            end
        end
    end
  else Some (commandWise, snd st).

Fixpoint gatherCommands (docid : string) (uuids : list Z) (seckeys : list string)
    (i : nat) (commands : list Z)
    (st : gmap Z Z * gmap Z (gmap string (list string)))
  : option (gmap Z Z * gmap Z (gmap string (list string))) :=
  match commands with
  | [] => Some st
  | command :: rest =>
      match gatherCommand docid uuids seckeys i command st with
      | None => None
      | Some st' => gatherCommands docid uuids seckeys (S i) rest st'
      end
  end.

(** The loop over the key versions of one vbucket, [mutations] first. *)
Fixpoint gatherKvs (kvs : list KeyVersions)
    (acc : Z * (gmap Z Z * gmap Z (gmap string (list string))))
  : option (Z * (gmap Z Z * gmap Z (gmap string (list string)))) :=
  match kvs with
  | [] => Some acc
  | kv :: rest =>
      match gatherCommands (Docid kv) (Uuids kv) (Keys kv) 0 (Commands kv) (snd acc) with
      | None => None
      | Some st' => gatherKvs rest (wrap_int (fst acc + 1), st')
      end
  end.

Fixpoint gatherVbs (vbs : list VbKeyVersions)
    (acc : Z * (gmap Z Z * gmap Z (gmap string (list string))))
  : option (Z * (gmap Z Z * gmap Z (gmap string (list string)))) :=
  match vbs with
  | [] => Some acc
  | vb :: rest =>
      match gatherKvs (Kvs vb) acc with
      | None => None
      | Some acc' => gatherVbs rest acc'
      end
  end.

(** [gatherKeys]: the count it returns with the two maps as it leaves
    them, or [None] when it panics. *)
Definition gatherKeys (vbs : list VbKeyVersions) (commandWise : gmap Z Z)
    (keys : gmap Z (gmap string (list string)))
  : option (Z * (gmap Z Z * gmap Z (gmap string (list string)))) :=
  gatherVbs vbs (0, (commandWise, keys)).

(** *** Reading an input *)

(** All key versions of the vbuckets, in the order the loops meet them. *)
Definition allKvs (vbs : list VbKeyVersions) : list KeyVersions :=
  concat (Kvs <$> vbs).

(** The upserts of instance [uuid] among the commands from index [i] on. *)
Fixpoint upsertsIn (uuid : Z) (uuids : list Z) (i : nat) (commands : list Z) : nat :=
  match commands with
  | [] => 0
  | command :: rest =>
      ((if isUpsert command && bool_decide (uuids !! i = Some uuid) then 1 else 0)
       + upsertsIn uuid uuids (S i) rest)%nat
  end.

Definition upsertsFor (uuid : Z) (kvs : list KeyVersions) : nat :=
  sum_list_with (fun kv => upsertsIn uuid (Uuids kv) 0 (Commands kv)) kvs.

(** How often a command byte occurs. *)
Definition occurrences (cmd : Z) (kvs : list KeyVersions) : nat :=
  sum_list_with
    (fun kv => length (List.filter (fun command => command mod 256 =? cmd) (Commands kv)))
    kvs.

(** The entry of a command byte after [k] more occurrences: untouched when
    there were none, else counted up from the entry, or from 0 without one. *)
Definition countedUp (k : nat) (entry : option Z) : option Z :=
  match k with
  | O => entry
  | _ => Some (wrap_int (default 0 entry + Z.of_nat k))
  end.

(** Every upsert finds its instance id and its key at its index, and the
    instance among [instances]. *)
Definition upsertsResolve (instances : gset Z) (kv : KeyVersions) : Prop :=
  forall i command,
    Commands kv !! i = Some command -> isUpsert command = true ->
    exists uuid,
      Uuids kv !! i = Some uuid /\ uuid ∈ instances /\ is_Some (Keys kv !! i).

(** The instances stay, and under each of them the document lists only grow
    at their end, by [n] documents in all. *)
Definition keysGrow (n : Z -> nat)
    (keys keys' : gmap Z (gmap string (list string))) : Prop :=
  dom keys' = dom keys /\
  forall uuid inner, keys !! uuid = Some inner ->
    exists inner',
      keys' !! uuid = Some inner' /\
      docsOf inner' = (docsOf inner + n uuid)%nat /\
      forall key docs, inner !! key = Some docs ->
        exists more, inner' !! key = Some (docs ++ more).

End Gather.

End Datapath.

(** ** Inputs for the key gatherer, for examples *)

(** Command bytes for the examples. *)
Definition exampleCodes : Datapath.CommandCodes :=
  {| Datapath.StreamBegin := 6; Datapath.Upsert := 1 |}.

(** Two vbuckets: a stream begin, then a document with two upserts for
    instances 17 and 18, then a document with one upsert for instance 17
    under a key already seen. *)
Definition exampleVbs : list Datapath.VbKeyVersions :=
  [Datapath.mkVbKeyVersions
     [Datapath.mkKeyVersions "" [] [] [6];
      Datapath.mkKeyVersions "doc1" [17; 18] ["k1"; "k2"]%string [1; 1]];
   Datapath.mkVbKeyVersions
     [Datapath.mkKeyVersions "doc2" [17] ["k1"%string] [1]]].

(** The map of the endpoint server: an entry, empty, for each instance. *)
Definition exampleKeys : gmap Z (gmap string (list string)) :=
  {[17 := ∅; 18 := ∅]}.
(** * Theorems *)

(** ** The merge of vbucket timestamps *)

Section MergeRule.
Import TimestampList.




Lemma mergeTs_vbucket (a b : TsVbuuid) :
  vbucket a = vbucket b -> vbucket (mergeTs a b) = vbucket b.
Proof. intros E. unfold mergeTs. repeat case_match; congruence. Qed.







Lemma tsLe_antisym (a b : TsVbuuid) :
  vbucket a = vbucket b -> tsLe a b -> tsLe b a -> a = b.
Proof.
  destruct a, b; unfold tsLe; simpl. intros -> H1 H2. f_equal; lia.
Qed.


Lemma findVb_Some_vbucket (vb : Z) (s : StabilityTimestamp) (x : TsVbuuid) :
  findVb vb s = Some x -> vbucket x = vb.
Proof.
  induction s as [|y r IH]; simpl; [discriminate|].
  destruct (Z.eqb_spec (vbucket y) vb); [intros [= <-]; assumption | exact IH].
Qed.


Lemma findVb_mergeEntry_other (vb : Z) (e : TsVbuuid) (s : StabilityTimestamp) :
  vb <> vbucket e -> findVb vb (mergeEntry e s) = findVb vb s.
Proof.
  intros N. induction s as [|y r IH]; simpl.
  - destruct (Z.eqb_spec (vbucket e) vb); [congruence | reflexivity].
  - destruct (Z.eqb_spec (vbucket y) (vbucket e)) as [E|N']; simpl.
    + rewrite (mergeTs_vbucket _ _ E), <- E.
      destruct (Z.eqb_spec (vbucket y) vb); [congruence | reflexivity].
    + now rewrite IH.
Qed.








Lemma kept_addTimestamp_frame (l : gmap (Z * string) (list TsVbuuid))
    (r : Report) (k : Z * string) (vb : Z) :
  reportKey r <> k \/ vbucket (rTs r) <> vb ->
  kept (addTimestamp l r) k vb = kept l k vb.
Proof.
  unfold kept, addTimestamp. intros H.
  destruct (decide (reportKey r = k)) as [<-|N].
  - rewrite lookup_insert_eq. simpl. apply findVb_mergeEntry_other.
    destruct H; congruence.
  - now rewrite lookup_insert_ne.
Qed.








(** No merge that keeps the higher sequenceNumber lets the higher epochId
    win: the two requirements of the spec exclude each other. *)
Lemma no_merge_meets_both_rules (merge : TsVbuuid -> TsVbuuid -> TsVbuuid) :
  (forall a b, vbucket a = vbucket b ->
     sequenceNumber b < sequenceNumber a -> merge a b = a) ->
  (forall a b, vbucket a = vbucket b ->
     epochId a < epochId b -> merge a b = b) ->
  False.
Proof.
  intros Hseq Hepoch.
  pose proof (Hseq (rTs exAhead) (rTs exLaterEpoch) eq_refl eq_refl) as H1.
  pose proof (Hepoch (rTs exAhead) (rTs exLaterEpoch) eq_refl eq_refl) as H2.
  rewrite H1 in H2. discriminate H2.
Qed.

End MergeRule.

(** ** The life cycle of the manager *)

Section ManagerFacts.
Context `{PackageDecls}.

Lemma stopMasterServiceNoLock_fields (m : IndexManager) :
  let m' := fst (stopMasterServiceNoLock m) in
  streamMgr m' = None /\ timer m' = None /\
  (servicesPaired m -> timekeeperStopCh m' = None) /\
  repo m' = repo m /\ coordinator m' = coordinator m /\
  reqHandler m' = reqHandler m /\ eventMgr m' = eventMgr m /\
  admin m' = admin m /\ timestampCh m' = timestampCh m /\
  timestampPersistInterval m' = timestampPersistInterval m /\
  isClosed m' = isClosed m.
Proof.
  destruct m as [r c h e s a t tc sc i cl].
  unfold stopMasterServiceNoLock, servicesPaired; simpl.
  destruct s, t, sc; simpl; repeat split; auto; discriminate.
Qed.

Lemma stopMasterServiceNoLock_effects (m : IndexManager) :
  snd (stopMasterServiceNoLock m) =
  match streamMgr m with Some s => [StreamMgrClose s] | None => [] end ++
  match timer m with
  | Some t =>
      TimerStopAll t ::
      match timekeeperStopCh m with Some c => [ChanClose c] | None => [] end
  | None => []
  end.
Proof.
  destruct m as [r c h e s a t tc sc i cl].
  unfold stopMasterServiceNoLock; simpl.
  destruct s, t, sc; reflexivity.
Qed.

Lemma stopMasterServiceNoLock_paired (m : IndexManager) :
  servicesPaired m -> servicesPaired (fst (stopMasterServiceNoLock m)).
Proof.
  intros P _. now apply stopMasterServiceNoLock_fields.
Qed.

Lemma Close_fields (m : IndexManager) :
  let m' := fst (Close m) in
  timer m' = (if isClosed m then timer m else None) /\
  timekeeperStopCh m' =
    (if isClosed m then timekeeperStopCh m
     else timekeeperStopCh (fst (stopMasterServiceNoLock m))) /\
  timestampCh m' = timestampCh m.
Proof.
  unfold Close. destruct (isClosed m) eqn:C; simpl; [auto|].
  pose proof (stopMasterServiceNoLock_fields m) as F.
  destruct (stopMasterServiceNoLock m) as [m1 e1]; simpl in *.
  intuition.
Qed.

Lemma step_servicesPaired (op : Op) (w : World) :
  servicesPaired (mgr w) -> servicesPaired (mgr (fst (step op w))).
Proof.
  intros P. destruct op; simpl.
  - unfold startMasterService.
    destruct newStreamMgr; simpl; intros ?; discriminate.
  - unfold stopMasterService.
    pose proof (stopMasterServiceNoLock_paired _ P) as Q.
    destruct (stopMasterServiceNoLock (mgr w)); exact Q.
  - pose proof (Close_fields (mgr w)) as (Ft & Fs & _).
    pose proof (stopMasterServiceNoLock_fields (mgr w)) as (_ & _ & Fp & _).
    destruct (Close (mgr w)) as [m' e']; simpl in *.
    intros T. rewrite Fs. rewrite Ft in T.
    destruct (isClosed (mgr w)); auto.
  - unfold CleanupStabilityTimestamp.
    pose proof (stopMasterServiceNoLock_paired _ P) as Q.
    destruct (stopMasterServiceNoLock (mgr w)); exact Q.
  - exact P.
  - unfold GetStabilityTimestampChannel.
    destruct (timestampCh (mgr w) !! streamId); exact P.
  - unfold notifyNewTimestamp, chanSend.
    repeat (case_match; simpl; try exact P);
      simplify_eq; exact P.
  - unfold chanReceive. case_match; exact P.
Qed.

Lemma step_channelsSized (op : Op) (w : World) :
  channelsSized w -> channelsSized (fst (step op w)).
Proof.
  intros S. destruct op; simpl.
  - unfold startMasterService. destruct newStreamMgr; exact S.
  - unfold stopMasterService.
    pose proof (stopMasterServiceNoLock_fields (mgr w)) as F.
    destruct (stopMasterServiceNoLock (mgr w)) as [m' e']; simpl in *.
    intros sid ch; simpl. destruct F as (_&_&_&_&_&_&_&_&->&_). apply S.
  - pose proof (Close_fields (mgr w)) as (_ & _ & F).
    destruct (Close (mgr w)) as [m' e']; simpl in *.
    intros sid ch; simpl. rewrite F. apply S.
  - unfold CleanupStabilityTimestamp.
    pose proof (stopMasterServiceNoLock_fields (mgr w)) as F.
    destruct (stopMasterServiceNoLock (mgr w)) as [m' e']; simpl in *.
    intros sid ch; simpl. destruct F as (_&_&_&_&_&_&_&_&->&_). apply S.
  - exact S.
  - unfold GetStabilityTimestampChannel.
    destruct (timestampCh (mgr w) !! streamId) eqn:L; [exact S|]. simpl.
    intros sid ch; simpl.
    destruct (decide (ch = nextRef w)) as [->|N].
    + intros _. rewrite lookup_insert_eq. eauto.
    + intros L'. rewrite lookup_insert_ne by congruence.
      destruct (decide (streamId = sid)) as [->|N'].
      * rewrite lookup_insert_eq in L'. congruence.
      * rewrite lookup_insert_ne in L' by exact N'. now apply (S sid).
  - unfold notifyNewTimestamp.
    destruct (unmarshallTimestamp (Timestamp wrapper)); [|exact S].
    destruct (timestampCh (mgr w) !! StreamId wrapper) as [ch|] eqn:L; [|exact S].
    destruct (chans w !! ch) as [c|] eqn:C; [|exact S].
    destruct (chLen c <? TIMESTAMP_NOTIFY_CH_SIZE); [|exact S].
    unfold chanSend. rewrite C.
    destruct (chLen c <? chCap c); [|exact S]. simpl.
    intros sid ch'; simpl. intros L'.
    destruct (S sid ch' L') as (c' & C' & K).
    destruct (decide (ch = ch')) as [->|N].
    + rewrite lookup_insert_eq. eexists; split; [reflexivity|]. simpl. congruence.
    + rewrite lookup_insert_ne by exact N. eauto.
  - unfold chanReceive.
    destruct (chans w !! ch) as [c|] eqn:C; [|exact S].
    intros sid ch'; simpl. intros L'.
    destruct (S sid ch' L') as (c' & C' & K).
    destruct (decide (ch = ch')) as [->|N].
    + rewrite lookup_insert_eq. eexists; split; [reflexivity|]. simpl. congruence.
    + rewrite lookup_insert_ne by exact N. eauto.
Qed.

Lemma reachable_invariant (w : World) :
  reachable w -> servicesPaired (mgr w) /\ channelsSized w.
Proof.
  induction 1 as [adm nr nh ne coord w e New | op w R [P S]].
  - unfold NewIndexManagerInternal in New.
    destruct nr; [|discriminate]. destruct nh; [|discriminate].
    destruct ne; [|discriminate]. injection New as <- _. split.
    + intros _. reflexivity.
    + intros sid ch. simpl. rewrite lookup_empty. discriminate.
  - split; [now apply step_servicesPaired | now apply step_channelsSized].
Qed.

Lemma runOps_reachable (ops : list Op) :
  forall w, reachable w -> reachable (runOps ops w).
Proof.
  unfold runOps. induction ops as [|op ops IH]; intros w R; simpl.
  - exact R.
  - apply IH. now constructor.
Qed.

Lemma exampleNew_reachable : reachable (H := H) exampleNew.
Proof.
  apply (reachable_new None (Ok 1%nat) (Ok 3%nat) (Ok 4%nat) 2%nat _
           [GoCoordinatorRun 2%nat]).
  reflexivity.
Qed.

End ManagerFacts.

(** ** DDL, close, channels and the persist interval *)

Section ManagerClaims.
Context `{PackageDecls}.


(** C9: [Close] sets [isClosed], so [IsClose] answers true afterwards; a
    second [Close] changes nothing and calls nobody; the first one stops the
    master services and then closes the repository, the coordinator, the
    event manager and the request handler, each when it is there. *)
Theorem Close_is_idempotent (m : IndexManager) :
  IsClose (fst (Close m)) = true /\
  Close (fst (Close m)) = (fst (Close m), []) /\
  (if isClosed m then Close m = (m, [])
   else
     snd (Close m) = snd (stopMasterServiceNoLock m) ++ closeCollaborators m /\
     fst (Close m) = set_isClosed true (fst (stopMasterServiceNoLock m)) /\
     streamMgr (fst (Close m)) = None /\ timer (fst (Close m)) = None) /\
  closeCollaborators m =
    match repo m with Some r => [RepoClose r] | None => [] end ++
    match coordinator m with Some c => [CoordinatorTerminate c] | None => [] end ++
    match eventMgr m with Some e => [EventMgrClose e] | None => [] end ++
    match reqHandler m with Some h => [ReqHandlerClose h] | None => [] end.
Proof.
  pose proof (stopMasterServiceNoLock_fields m) as F.
  unfold Close, IsClose. destruct (isClosed m) eqn:C; simpl.
  - rewrite C. auto.
  - destruct (stopMasterServiceNoLock m) as [m1 e1]; simpl in *.
    destruct F as (Fs & Ft & _ & Fr & Fc & Fh & Fe & _).
    repeat split; auto.
    unfold closeCollaborators. now rewrite Fr, Fc, Fh, Fe.
Qed.

Lemma step_keeps_registration (op : Op) (w : World) (sid : Z) (ch : nat) :
  timestampCh (mgr w) !! sid = Some ch ->
  timestampCh (mgr (fst (step op w))) !! sid = Some ch.
Proof.
  intros L. destruct op; simpl.
  - unfold startMasterService. destruct newStreamMgr; exact L.
  - unfold stopMasterService.
    pose proof (stopMasterServiceNoLock_fields (mgr w)) as F.
    destruct (stopMasterServiceNoLock (mgr w)) as [m' e']; simpl in *.
    destruct F as (_&_&_&_&_&_&_&_&->&_). exact L.
  - pose proof (Close_fields (mgr w)) as (_ & _ & F).
    destruct (Close (mgr w)) as [m' e']; simpl in *. now rewrite F.
  - unfold CleanupStabilityTimestamp.
    pose proof (stopMasterServiceNoLock_fields (mgr w)) as F.
    destruct (stopMasterServiceNoLock (mgr w)) as [m' e']; simpl in *.
    destruct F as (_&_&_&_&_&_&_&_&->&_). exact L.
  - exact L.
  - unfold GetStabilityTimestampChannel.
    destruct (timestampCh (mgr w) !! streamId) eqn:L'; [exact L|]. simpl.
    rewrite lookup_insert_ne by congruence. exact L.
  - unfold notifyNewTimestamp, chanSend.
    repeat (case_match; simpl; try exact L); simplify_eq; exact L.
  - unfold chanReceive. case_match; exact L.
Qed.

Lemma runOps_keeps_registration (ops : list Op) (sid : Z) (ch : nat) :
  forall w, timestampCh (mgr w) !! sid = Some ch ->
  timestampCh (mgr (runOps ops w)) !! sid = Some ch.
Proof.
  unfold runOps. induction ops as [|op ops IH]; intros w L; simpl.
  - exact L.
  - apply IH. now apply step_keeps_registration.
Qed.

Lemma GetStabilityTimestampChannel_registered (sid : Z) (ch : nat) (w : World) :
  timestampCh (mgr w) !! sid = Some ch ->
  GetStabilityTimestampChannel sid w = (w, ch).
Proof. intros L. unfold GetStabilityTimestampChannel. now rewrite L. Qed.

(** C8: the first [GetStabilityTimestampChannel] of a stream makes a channel
    of capacity [TIMESTAMP_NOTIFY_CH_SIZE] and stores it under the stream;
    every later call for that stream, whatever the manager did in between,
    returns the stored channel and leaves the manager and its channels as
    they are. *)
Theorem GetStabilityTimestampChannel_idempotent
    (streamId : Z) (ops : list Op) (w : World) :
  timestampCh (mgr (fst (GetStabilityTimestampChannel streamId w))) !! streamId
    = Some (snd (GetStabilityTimestampChannel streamId w)) /\
  match timestampCh (mgr w) !! streamId with
  | None =>
      snd (GetStabilityTimestampChannel streamId w) = nextRef w /\
      chans (fst (GetStabilityTimestampChannel streamId w)) !! nextRef w
        = Some (mkChan TIMESTAMP_NOTIFY_CH_SIZE []) /\
      nextRef (fst (GetStabilityTimestampChannel streamId w)) = S (nextRef w)
  | Some ch => GetStabilityTimestampChannel streamId w = (w, ch)
  end /\
  GetStabilityTimestampChannel streamId
      (runOps ops (fst (GetStabilityTimestampChannel streamId w)))
    = (runOps ops (fst (GetStabilityTimestampChannel streamId w)),
       snd (GetStabilityTimestampChannel streamId w)).
Proof.
  assert (R : timestampCh (mgr (fst (GetStabilityTimestampChannel streamId w)))
                !! streamId
              = Some (snd (GetStabilityTimestampChannel streamId w))).
  { unfold GetStabilityTimestampChannel.
    destruct (timestampCh (mgr w) !! streamId) eqn:L; simpl; [exact L|].
    apply lookup_insert_eq. }
  split; [exact R|]. split.
  - unfold GetStabilityTimestampChannel.
    destruct (timestampCh (mgr w) !! streamId) eqn:L; simpl; [reflexivity|].
    repeat split. apply lookup_insert_eq.
  - apply GetStabilityTimestampChannel_registered.
    now apply runOps_keeps_registration.
Qed.

(** C6: in a world a constructed manager can be in, [notifyNewTimestamp]
    never blocks on its send: the timestamp is queued exactly when it
    unmarshals, a channel is registered for its stream and that channel
    holds fewer than [TIMESTAMP_NOTIFY_CH_SIZE] values; in every other case
    it is dropped and nothing changes. The function has no result, so no
    error reaches the caller. *)
Theorem notifyNewTimestamp_never_blocks
    (wrapper : timestampSerializable) (w : World) :
  reachable w ->
  snd (notifyNewTimestamp wrapper w) <> Blocked /\
  (snd (notifyNewTimestamp wrapper w) = Sent <->
   exists ts ch c,
     unmarshallTimestamp (Timestamp wrapper) = Ok ts /\
     timestampCh (mgr w) !! StreamId wrapper = Some ch /\
     chans w !! ch = Some c /\
     chLen c < TIMESTAMP_NOTIFY_CH_SIZE /\
     fst (notifyNewTimestamp wrapper w) =
       mkWorld (mgr w) (<[ch := mkChan (chCap c) (chBuf c ++ [ts])]> (chans w))
         (nextRef w)) /\
  (snd (notifyNewTimestamp wrapper w) = Dropped ->
   fst (notifyNewTimestamp wrapper w) = w).
Proof.
  intros R. destruct (reachable_invariant w R) as [_ S].
  unfold notifyNewTimestamp.
  destruct (unmarshallTimestamp (Timestamp wrapper)) as [ts|e] eqn:U; simpl.
  2: { repeat split; try discriminate; auto.
       intros (? & ? & ? & ? & _). discriminate. }
  destruct (timestampCh (mgr w) !! StreamId wrapper) as [ch|] eqn:L; simpl.
  2: { repeat split; try discriminate; auto.
       intros (? & ? & ? & _ & ? & _). discriminate. }
  destruct (S _ _ L) as (c & C & K). rewrite C.
  destruct (Z.ltb_spec (chLen c) TIMESTAMP_NOTIFY_CH_SIZE) as [Lt|Ge]; simpl.
  - unfold chanSend. rewrite C, K.
    destruct (Z.ltb_spec (chLen c) TIMESTAMP_NOTIFY_CH_SIZE); [|lia]. simpl.
    repeat split; try discriminate; auto.
    intros _. exists ts, ch, c. rewrite K. auto.
  - repeat split; try discriminate; auto.
    intros (? & ? & c' & _ & [= <-] & C' & Lt' & _).
    rewrite C in C'. injection C' as <-. lia.
Qed.

Lemma step_keeps_interval (op : Op) (w : World) :
  assignsInterval op = false ->
  timestampPersistInterval (mgr (fst (step op w)))
    = timestampPersistInterval (mgr w).
Proof.
  destruct op; simpl; try discriminate; intros _.
  - unfold stopMasterService.
    pose proof (stopMasterServiceNoLock_fields (mgr w)) as F.
    destruct (stopMasterServiceNoLock (mgr w)); simpl in *. intuition.
  - pose proof (stopMasterServiceNoLock_fields (mgr w)) as F.
    unfold Close. destruct (isClosed (mgr w)); [reflexivity|].
    destruct (stopMasterServiceNoLock (mgr w)); simpl in *. intuition.
  - unfold CleanupStabilityTimestamp.
    pose proof (stopMasterServiceNoLock_fields (mgr w)) as F.
    destruct (stopMasterServiceNoLock (mgr w)); simpl in *. intuition.
  - unfold GetStabilityTimestampChannel. now case_match.
  - unfold notifyNewTimestamp, chanSend.
    repeat (case_match; simpl; try reflexivity); simplify_eq; reflexivity.
  - unfold chanReceive. now case_match.
Qed.

Lemma runOps_keeps_interval (ops : list Op) :
  forall w, forallb (fun op => negb (assignsInterval op)) ops = true ->
  timestampPersistInterval (mgr (runOps ops w))
    = timestampPersistInterval (mgr w).
Proof.
  unfold runOps. induction ops as [|op ops IH]; intros w A; simpl.
  - reflexivity.
  - simpl in A. apply andb_prop in A as [A1 A2].
    rewrite (IH _ A2). apply step_keeps_interval.
    now apply negb_true_iff.
Qed.

(** C10: [startMasterService] assigns [TIMESTAMP_PERSIST_INTERVAL] before it
    starts the keeper, whatever [SetTimestampPersistenceInterval] stored
    before; a value stored after the start stays until the next start or
    the next [SetTimestampPersistenceInterval]. *)
Theorem startMasterService_resets_persist_interval
    (elapsed : Z) (newStreamMgr : result StreamManager) (ops : list Op) (w : World) :
  timestampPersistInterval
      (mgr (fst (fst (startMasterService newStreamMgr
         (set_mgr (SetTimestampPersistenceInterval elapsed (mgr w)) w)))))
    = TIMESTAMP_PERSIST_INTERVAL /\
  head (snd (fst (startMasterService newStreamMgr
         (set_mgr (SetTimestampPersistenceInterval elapsed (mgr w)) w))))
    = Some (GoRunTimestampKeeper (Some (nextRef w)) (Some (S (nextRef w)))
              TIMESTAMP_PERSIST_INTERVAL) /\
  timestampPersistInterval
      (SetTimestampPersistenceInterval elapsed
         (mgr (fst (fst (startMasterService newStreamMgr w)))))
    = elapsed /\
  (forallb (fun op => negb (assignsInterval op)) ops = true ->
   timestampPersistInterval
       (mgr (runOps ops
          (set_mgr (SetTimestampPersistenceInterval elapsed
                      (mgr (fst (fst (startMasterService newStreamMgr w)))))
                   (fst (fst (startMasterService newStreamMgr w))))))
     = elapsed).
Proof.
  repeat split.
  - unfold startMasterService. now destruct newStreamMgr.
  - unfold startMasterService. now destruct newStreamMgr.
  - intros A. now rewrite (runOps_keeps_interval ops _ A).
Qed.

End ManagerClaims.

(** ** The timestamp keeper *)

Section KeeperFacts.
Context `{PackageDecls}.

Lemma notifyRequest_no_persist (it : Iteration) :
  existsb isPersistCall (notifyRequest it) = false /\
  existsb isPersistOk (notifyRequest it) = false.
Proof. unfold notifyRequest. now destruct (marshallTimestampSerializable _). Qed.

Lemma persistAttempted_due (it : Iteration) (k : Keeper) :
  persistAttempted it k = persistDue it k.
Proof.
  unfold persistAttempted, keeperBody.
  destruct (notifyRequest_no_persist it) as [N _].
  destruct (persistDue it k), (itSetOk it); simpl; auto.
Qed.

Lemma persistSucceeded_due (it : Iteration) (k : Keeper) :
  persistSucceeded it k = persistDue it k && itSetOk it.
Proof.
  unfold persistSucceeded, keeperBody.
  destruct (notifyRequest_no_persist it) as [_ N].
  destruct (persistDue it k), (itSetOk it); simpl; auto.
Qed.

Lemma keeperBody_state (it : Iteration) (k : Keeper) :
  timestamps (fst (keeperBody it k)) = addTimestamp (timestamps k) (itReport it) /\
  persistTimestamp (fst (keeperBody it k)) = persistDue it k && negb (itSetOk it) /\
  lastPersistTime (fst (keeperBody it k)) =
    (if persistSucceeded it k then to_uint64 (itSavedAt it) else lastPersistTime k).
Proof.
  rewrite persistSucceeded_due. unfold keeperBody.
  destruct (persistDue it k), (itSetOk it); simpl; auto.
Qed.

Lemma latestPersist_app (es1 es2 : list Effect) (acc : option bool) :
  latestPersist (es1 ++ es2) acc = latestPersist es2 (latestPersist es1 acc).
Proof.
  revert acc. induction es1 as [|e es1 IH]; intros acc; simpl; [reflexivity|].
  destruct e; apply IH.
Qed.

Lemma latestPersist_body (it : Iteration) (k : Keeper) (acc : option bool) :
  latestPersist (snd (keeperBody it k)) acc =
  (if persistDue it k then Some (itSetOk it) else acc).
Proof.
  unfold keeperBody, notifyRequest.
  destruct (persistDue it k), (itSetOk it),
    (marshallTimestampSerializable (itReport it)); reflexivity.
Qed.

Lemma keeperAfter_snoc (k : Keeper) (its : list Iteration) (it : Iteration) :
  keeperAfter k (its ++ [it]) = fst (keeperBody it (keeperAfter k its)).
Proof. unfold keeperAfter. now rewrite foldl_app. Qed.

(** The two variables of the loop, read off the calls made so far. *)
Lemma keeper_history (its : list Iteration) :
  forall (k : Keeper) (acc : option bool),
  persistTimestamp k = match acc with None => true | Some ok => negb ok end ->
  persistTimestamp (keeperAfter k its) =
    match latestPersist (concat (snd <$> passLog its k)) acc with
    | None => true
    | Some ok => negb ok
    end /\
  lastPersistTime (keeperAfter k its) = lastSavedAt (lastPersistTime k) (passLog its k).
Proof.
  induction its as [|it its IH]; intros k acc P; simpl.
  - auto.
  - rewrite latestPersist_app, latestPersist_body.
    destruct (keeperBody_state it k) as (_ & Kp & Kl).
    fold (persistSucceeded it k). rewrite <- Kl.
    apply IH. rewrite Kp.
    destruct (persistDue it k) eqn:D, (itSetOk it); simpl; try reflexivity.
    all: rewrite <- P; unfold persistDue in D.
    all: now apply orb_false_iff in D as [-> _].
Qed.

Lemma keeperLoop_passes (its : list Iteration) :
  forall k : Keeper,
  keeperLoop (Inbound <$> its) k
    = (keeperAfter k its, concat (snd <$> passLog its k), false).
Proof.
  induction its as [|it its IH]; intros k; simpl; [reflexivity|].
  destruct (keeperBody it k) as [k1 e1] eqn:B; simpl.
  now rewrite IH.
Qed.

Lemma keeperLoop_stop (its : list Iteration) (rest : list Selected) :
  forall k : Keeper,
  keeperLoop ((Inbound <$> its) ++ StopSignal :: rest) k
    = (keeperAfter k its, concat (snd <$> passLog its k), true).
Proof.
  induction its as [|it its IH]; intros k; simpl; [reflexivity|].
  destruct (keeperBody it k) as [k1 e1] eqn:B; simpl.
  now rewrite IH.
Qed.

Lemma keeperAfter_timestamps (its : list Iteration) :
  forall k : Keeper,
  timestamps (keeperAfter k its) = foldl addTimestamp (timestamps k) (itReport <$> its).
Proof.
  induction its as [|it its IH]; intros k; simpl; [reflexivity|].
  rewrite IH. now destruct (keeperBody_state it k) as (-> & _).
Qed.

End KeeperFacts.

Section KeeperClaims.
Context `{PackageDecls}.

(** C2 (amended): the loop calls [SetStabilityTimestamps] on the first
    report it receives after it started, whatever the stream of the report;
    on every later report it calls it exactly when a persist is owed (none
    was tried, or the latest call failed) or more than the persist interval,
    as a [uint64] difference, separates the clock from the one recorded by
    the latest successful persist (the loop's start when there is none).
    The list it passes is the collection with the report merged in. *)
Theorem keeper_persist_policy
    (startAt : Z) (saved : result timestampListSerializable)
    (before : list Iteration) (it : Iteration) :
  persistAttempted it (keeperInit startAt saved) = true /\
  persistAttempted it (keeperAfter (keeperInit startAt saved) before) =
    (persistOwed (concat (snd <$> passLog before (keeperInit startAt saved)))
     || (itInterval it <?
           sub64 (to_uint64 (itNow it))
             (lastSavedAt (to_uint64 startAt)
                (passLog before (keeperInit startAt saved))))) /\
  List.filter isPersistCall
      (snd (keeperBody it (keeperAfter (keeperInit startAt saved) before))) =
    (if persistAttempted it (keeperAfter (keeperInit startAt saved) before)
     then [RepoSetStabilityTimestamps
             (addTimestamp
                (timestamps (keeperAfter (keeperInit startAt saved) before))
                (itReport it))
             (itSetOk it)]
     else []).
Proof.
  repeat split.
  - now rewrite persistAttempted_due.
  - rewrite persistAttempted_due. unfold persistDue, persistOwed.
    destruct (keeper_history before (keeperInit startAt saved) None eq_refl)
      as [-> ->].
    reflexivity.
  - rewrite persistAttempted_due. unfold keeperBody, notifyRequest.
    destruct (persistDue it _), (itSetOk it),
      (marshallTimestampSerializable (itReport it)); reflexivity.
Qed.

(** C3 (amended): each pass of the loop submits one
    [OPCODE_NOTIFY_TIMESTAMP] request, carrying the serialized incoming
    report, exactly when that report marshals; whether the pass persisted,
    and with what outcome, plays no part. *)
Theorem keeper_notifies_every_marshalled_report (it : Iteration) (k : Keeper) :
  List.filter isRequest (snd (keeperBody it k)) =
    match marshallTimestampSerializable (itReport it) with
    | Ok data =>
        [CoordinatorNewRequest (to_uint64 (itRequestAt it)) OPCODE_NOTIFY_TIMESTAMP
           "Stability Timestamp" (Some data) (itAccepted it)]
    | Err _ => []
    end /\
  notified it k =
    match marshallTimestampSerializable (itReport it) with
    | Ok _ => true
    | Err _ => false
    end.
Proof.
  unfold notified, keeperBody, notifyRequest.
  destruct (persistDue it k), (itSetOk it),
    (marshallTimestampSerializable (itReport it)); split; reflexivity.
Qed.

(** C7: when [SetStabilityTimestamps] fails, the loop goes on to the next
    report, the flag stays set and [lastPersistTime] keeps its value, so the
    next report tries the persist again; [lastPersistTime] changes in no
    pass but one whose persist succeeded. *)
Theorem failed_persist_is_retried (it next : Iteration) (k : Keeper) :
  persistDue it k = true -> itSetOk it = false ->
  keeperLoop (Inbound <$> [it; next]) k
    = (keeperAfter k [it; next], concat (snd <$> passLog [it; next] k), false) /\
  persistSucceeded it k = false /\
  persistTimestamp (fst (keeperBody it k)) = true /\
  lastPersistTime (fst (keeperBody it k)) = lastPersistTime k /\
  persistAttempted next (fst (keeperBody it k)) = true /\
  (forall (it' : Iteration) (k' : Keeper),
     lastPersistTime (fst (keeperBody it' k')) =
       if persistSucceeded it' k' then to_uint64 (itSavedAt it')
       else lastPersistTime k').
Proof.
  intros D F.
  destruct (keeperBody_state it k) as (_ & Kp & Kl).
  assert (S : persistSucceeded it k = false)
    by (rewrite persistSucceeded_due, D, F; reflexivity).
  rewrite S in Kl. rewrite D, F in Kp. simpl in Kp.
  repeat split; auto.
  - apply keeperLoop_passes.
  - rewrite persistAttempted_due. unfold persistDue. now rewrite Kp.
  - intros it' k'. apply keeperBody_state.
Qed.

Lemma repoHolds_app (es1 es2 : list Effect)
    (held : option timestampListSerializable) :
  repoHolds held (es1 ++ es2) = repoHolds (repoHolds held es1) es2.
Proof.
  revert held. induction es1 as [|e es1 IH]; intros held; simpl; [reflexivity|].
  destruct e; try apply IH. destruct ok; apply IH.
Qed.

Lemma repoHolds_body (it : Iteration) (k : Keeper)
    (held : option timestampListSerializable) :
  repoHolds held (snd (keeperBody it k)) =
  if persistSucceeded it k then Some (timestamps (fst (keeperBody it k)))
  else held.
Proof.
  rewrite persistSucceeded_due. unfold keeperBody, notifyRequest.
  destruct (persistDue it k), (itSetOk it),
    (marshallTimestampSerializable (itReport it)); reflexivity.
Qed.

Lemma passLog_snoc (its : list Iteration) (it : Iteration) :
  forall k : Keeper,
  passLog (its ++ [it]) k
    = passLog its k ++ [(it, snd (keeperBody it (keeperAfter k its)))].
Proof.
  induction its as [|j its IH]; intros k; simpl; [reflexivity|].
  now rewrite IH.
Qed.

(** C5: in a world a constructed manager can be in, [stopMasterService]
    leaves [streamMgr], [timer] and [timekeeperStopCh] nil, having closed
    the stream manager, stopped the timer and closed the stop channel that
    were there: all three after a [startMasterService] that succeeded. When
    the loop takes the stop signal it returns at once: its
    calls are those of the passes before the signal, so the repository
    holds what the latest successful persist wrote, while the loop's own
    list had every report merged in; a report whose pass did not persist is
    in that list only. *)
Theorem stopMasterService_stops_and_discards
    (w : World) (startAt : Z) (saved : result timestampListSerializable)
    (before : list Iteration) (rest : list Selected)
    (held : option timestampListSerializable) (s : StreamManager) :
  reachable w ->
  streamMgr (fst (stopMasterService (mgr w))) = None /\
  timer (fst (stopMasterService (mgr w))) = None /\
  timekeeperStopCh (fst (stopMasterService (mgr w))) = None /\
  snd (stopMasterService (mgr w)) =
    match streamMgr (mgr w) with Some s => [StreamMgrClose s] | None => [] end ++
    match timer (mgr w) with
    | Some t =>
        TimerStopAll t ::
        match timekeeperStopCh (mgr w) with Some c => [ChanClose c] | None => [] end
    | None => []
    end /\
  snd (stopMasterService (mgr (fst (fst (startMasterService (Ok s) w))))) =
    [StreamMgrClose s; TimerStopAll (nextRef w); ChanClose (S (nextRef w))] /\
  runTimestampKeeper startAt saved ((Inbound <$> before) ++ StopSignal :: rest)
    = (keeperAfter (keeperInit startAt saved) before,
       RepoGetStabilityTimestamps ::
         concat (snd <$> passLog before (keeperInit startAt saved)),
       true) /\
  timestamps (keeperAfter (keeperInit startAt saved) before)
    = foldl addTimestamp (timestamps (keeperInit startAt saved))
        (itReport <$> before) /\
  (forall its it,
     before = its ++ [it] ->
     repoHolds held
       (snd (fst (runTimestampKeeper startAt saved
                    ((Inbound <$> before) ++ StopSignal :: rest))))
     = if persistSucceeded it (keeperAfter (keeperInit startAt saved) its)
       then Some (timestamps (keeperAfter (keeperInit startAt saved) before))
       else repoHolds held
              (concat (snd <$> passLog its (keeperInit startAt saved)))).
Proof.
  intros R. destruct (reachable_invariant w R) as [P _].
  assert (L : runTimestampKeeper startAt saved
                ((Inbound <$> before) ++ StopSignal :: rest)
              = (keeperAfter (keeperInit startAt saved) before,
                 RepoGetStabilityTimestamps ::
                   concat (snd <$> passLog before (keeperInit startAt saved)),
                 true)).
  { unfold runTimestampKeeper. now rewrite keeperLoop_stop. }
  unfold stopMasterService.
  pose proof (stopMasterServiceNoLock_fields (mgr w)) as (Fs & Ft & Fc & _).
  repeat split; auto.
  - apply stopMasterServiceNoLock_effects.
  - apply keeperAfter_timestamps.
  - intros its it ->. rewrite L. simpl.
    rewrite passLog_snoc, fmap_app, concat_app, repoHolds_app. simpl.
    rewrite app_nil_r, repoHolds_body, keeperAfter_snoc. reflexivity.
Qed.

End KeeperClaims.

(** ** The theorems at work, and where the spec departs from the code *)

Lemma exampleLeader_reachable : reachable (H := exampleDecls) exampleLeader.
Proof.
  unfold exampleLeader. apply runOps_reachable, exampleNew_reachable.
Qed.

(** C2, as stated, fails both ways. The first timestamp of stream 2 arrives
    ten ticks after stream 1 was saved: the spec's policy asks for a persist
    and the loop makes none. And after a failed save the next report of
    stream 1, neither the first of its stream nor an interval away, is
    persisted by the loop where the spec's policy asks for none. *)
Lemma first_report_of_second_stream_not_persisted :
  firstOfStream [exampleSaved1] exampleFirstOf2 = true /\
  shouldPersist (itInterval exampleFirstOf2)
      (lastSavedAt 0 (passLog [exampleSaved1] exampleKeeper))
      (itNow exampleFirstOf2)
      (firstOfStream [exampleSaved1] exampleFirstOf2) = true /\
  persistAttempted exampleFirstOf2 (keeperAfter exampleKeeper [exampleSaved1])
    = false /\
  firstOfStream [exampleFailed1] exampleAgain1 = false /\
  shouldPersist (itInterval exampleAgain1)
      (lastSavedAt 0 (passLog [exampleFailed1] exampleKeeper))
      (itNow exampleAgain1)
      (firstOfStream [exampleFailed1] exampleAgain1) = false /\
  persistAttempted exampleAgain1 (keeperAfter exampleKeeper [exampleFailed1])
    = true.
Proof. repeat split; vm_compute; reflexivity. Qed.

(** C3, as stated, fails: a pass that does not persist, and a pass whose
    persist fails, both submit the notification; what it carries is the
    incoming report. *)
Lemma notification_without_persist :
  persistSucceeded exampleFirstOf2 (keeperAfter exampleKeeper [exampleSaved1])
    = false /\
  snd (keeperBody exampleFirstOf2 (keeperAfter exampleKeeper [exampleSaved1]))
    = [CoordinatorNewRequest 22 OPCODE_NOTIFY_TIMESTAMP "Stability Timestamp"
         (Some [2; 0; 7; 1]) true] /\
  persistSucceeded exampleFailed1 exampleKeeper = false /\
  notified exampleFailed1 exampleKeeper = true.
Proof. repeat split; vm_compute; reflexivity. Qed.

Lemma stopMasterService_stops_and_discards_witness :
  reachable (H := exampleDecls) exampleLeader /\
  timekeeperStopCh (fst (stopMasterService (H := exampleDecls) (mgr exampleLeader)))
    = None.
Proof.
  assert (R : reachable (H := exampleDecls) exampleLeader)
    by exact exampleLeader_reachable.
  exact (conj R
    (proj1 (proj2 (proj2
      (stopMasterService_stops_and_discards (H := exampleDecls) exampleLeader 0
         (Err (CollaboratorError "not found"))
         [exampleSaved1; exampleUnsaved1] [] None 5%nat R))))).
Defined.

(** Stopping the leader of the example closes its stream manager, stops its
    timer and closes its stop channel. *)
Example leader_is_stopped :
  stopMasterService (H := exampleDecls) (mgr exampleLeader)
  = (mkIndexManager (Some 1%nat) (Some 2%nat) (Some 3%nat) (Some 4%nat)
       None None None {[1 := 2%nat]} None 100 false,
     [StreamMgrClose 5%nat; TimerStopAll 0%nat; ChanClose 1%nat]).
Proof. reflexivity. Qed.

(** The report of time 20 is merged in memory and never saved: after the
    stop the repository has sequence number 10 for vbucket 0 of stream 1,
    the loop had 12. *)
Example stop_discards_unsaved_report :
  TimestampList.kept
    (default ∅
       (repoHolds (H := exampleDecls) None
          (snd (fst (runTimestampKeeper 0 (Err (CollaboratorError "not found"))
                       [Inbound exampleSaved1; Inbound exampleUnsaved1; StopSignal])))))
    (1, "default"%string) 0
    = Some (TimestampList.mkTs 0 10 1) /\
  TimestampList.kept
    (timestamps (H := exampleDecls)
       (fst (fst (runTimestampKeeper 0 (Err (CollaboratorError "not found"))
                    [Inbound exampleSaved1; Inbound exampleUnsaved1; StopSignal]))))
    (1, "default"%string) 0
    = Some (TimestampList.mkTs 0 12 1).
Proof. split; vm_compute; reflexivity. Qed.

Lemma notifyNewTimestamp_never_blocks_witness :
  reachable (H := exampleDecls) exampleLeader /\
  snd (notifyNewTimestamp (H := exampleDecls) exampleReport1 exampleLeader)
    <> Blocked.
Proof.
  assert (R : reachable (H := exampleDecls) exampleLeader)
    by exact exampleLeader_reachable.
  exact (conj R
    (proj1 (notifyNewTimestamp_never_blocks (H := exampleDecls)
              exampleReport1 exampleLeader R))).
Defined.

(** Two values fit the channel of the example; the third is dropped. *)
Example third_timestamp_is_dropped :
  snd (notifyNewTimestamp (H := exampleDecls) exampleReport1 exampleLeader) = Sent /\
  snd (notifyNewTimestamp (H := exampleDecls) exampleReport1
         (runOps (H := exampleDecls)
            [OpNotifyNewTimestamp exampleReport1; OpNotifyNewTimestamp exampleReport1]
            exampleLeader)) = Dropped.
Proof. split; vm_compute; reflexivity. Qed.

Lemma failed_persist_is_retried_witness :
  persistDue exampleFailed1 exampleKeeper = true /\
  itSetOk exampleFailed1 = false /\
  persistAttempted exampleAgain1 (fst (keeperBody exampleFailed1 exampleKeeper))
    = true.
Proof.
  assert (D : persistDue exampleFailed1 exampleKeeper = true) by reflexivity.
  assert (F : itSetOk exampleFailed1 = false) by reflexivity.
  exact (conj D (conj F
    (proj1 (proj2 (proj2 (proj2 (proj2
      (failed_persist_is_retried (H := exampleDecls)
         exampleFailed1 exampleAgain1 exampleKeeper D F)))))))).
Defined.

Lemma startMasterService_resets_persist_interval_witness :
  forallb (fun op => negb (assignsInterval op))
    [OpStopMasterService; OpGetStabilityTimestampChannel 1] = true /\
  timestampPersistInterval
    (mgr (runOps (H := exampleDecls)
            [OpStopMasterService; OpGetStabilityTimestampChannel 1]
            (set_mgr
               (SetTimestampPersistenceInterval 250
                  (mgr (fst (fst (startMasterService (H := exampleDecls)
                                    (Ok 5%nat) exampleNew)))))
               (fst (fst (startMasterService (H := exampleDecls)
                            (Ok 5%nat) exampleNew))))))
    = 250.
Proof.
  assert (A : forallb (fun op => negb (assignsInterval op))
                [OpStopMasterService; OpGetStabilityTimestampChannel 1] = true)
    by reflexivity.
  exact (conj A
    (proj2 (proj2 (proj2
      (startMasterService_resets_persist_interval (H := exampleDecls) 250
         (Ok 5%nat) [OpStopMasterService; OpGetStabilityTimestampChannel 1]
         exampleNew))) A)).
Defined.

(** The interval stored before the node became leader is gone after it. *)
Example interval_set_before_start_is_lost :
  timestampPersistInterval
    (mgr (runOps (H := exampleDecls)
            [OpSetTimestampPersistenceInterval 250; OpStartMasterService (Ok 5%nat)]
            exampleNew))
    = 100.
Proof. reflexivity. Qed.

(** A create that the coordinator does not acknowledge, one whose
    definition does not marshal, and one that is acknowledged. *)
Example create_index_outcomes :
  fst (HandleCreateIndexDDL (H := exampleDecls) (mkIndexDefn "b" "idx1") 7 false)
    = Some (MgrError ERROR_MGR_DDL_CREATE_IDX NORMAL INDEX_MANAGER None
              "Fail to complete processing create index statement for index 'idx1'") /\
  HandleCreateIndexDDL (H := exampleDecls) (mkIndexDefn "b" "") 7 true
    = (Some (CollaboratorError "no name"), []) /\
  HandleCreateIndexDDL (H := exampleDecls) (mkIndexDefn "b" "idx1") 7 true
    = (None,
       [CoordinatorNewRequest 7 OPCODE_ADD_IDX_DEFN "b/idx1" (Some [1]) true]).
Proof. repeat split; reflexivity. Qed.

(** ** More on the life cycle and the channels *)

Section ManagerMore.
Context `{PackageDecls}.

(** X1: [NewIndexManagerInternal] returns a manager exactly when the
    repository, the request handler and the event manager were all built;
    otherwise it returns the error of the first that failed, after closing
    what was built before it, and never starts the coordinator. A manager it
    returns is open, has no leader-only service and no channel, and its
    coordinator was started. *)
Theorem NewIndexManagerInternal_all_or_nothing
    (adm : option StreamAdmin) (newRepo : result MetadataRepo)
    (newReqHandler : result requestHandler) (newEventMgr : result eventManager)
    (coord : Coordinator) :
  match newRepo, newReqHandler, newEventMgr with
  | Ok r, Ok h, Ok ev =>
      exists w,
        NewIndexManagerInternal adm newRepo newReqHandler newEventMgr coord
          = (Some w, [GoCoordinatorRun coord], None) /\
        IsClose (mgr w) = false /\ servicesDown (mgr w) /\
        timestampCh (mgr w) = ∅ /\ chans w = ∅ /\
        repo (mgr w) = Some r /\ coordinator (mgr w) = Some coord /\
        reqHandler (mgr w) = Some h /\ eventMgr (mgr w) = Some ev /\
        admin (mgr w) = adm
  | Err e, _, _ =>
      NewIndexManagerInternal adm newRepo newReqHandler newEventMgr coord
        = (None, [], Some e)
  | Ok r, Err e, _ =>
      NewIndexManagerInternal adm newRepo newReqHandler newEventMgr coord
        = (None, [RepoClose r], Some e)
  | Ok r, Ok h, Err e =>
      NewIndexManagerInternal adm newRepo newReqHandler newEventMgr coord
        = (None, [RepoClose r; ReqHandlerClose h], Some e)
  end.
Proof.
  destruct newRepo as [r|e]; [|reflexivity].
  destruct newReqHandler as [h|e]; [|reflexivity].
  destruct newEventMgr as [ev|e]; [|reflexivity].
  eexists. split; [reflexivity|]. unfold servicesDown. simpl. repeat split.
Qed.

(** X2: a second [stopMasterService] finds nothing to stop: it calls nobody
    and leaves the manager as the first one left it. *)
Theorem stopMasterService_twice (m : IndexManager) :
  stopMasterService (fst (stopMasterService m))
    = (fst (stopMasterService m), []).
Proof.
  destruct m as [r c h e s a t tc sc i cl].
  unfold stopMasterService, stopMasterServiceNoLock; simpl.
  destruct s, t, sc; reflexivity.
Qed.

(** X3: on a manager without leader-only services, [startMasterService]
    followed by [stopMasterService] gives the manager back with nothing but
    the persist interval changed, whether or not the stream manager could be
    built; when it could not, the error is returned with the timer and the
    keeper already running, and the stop still ends them. *)
Theorem start_then_stop_restores
    (newStreamMgr : result StreamManager) (w : World) :
  servicesDown (mgr w) ->
  fst (stopMasterService (mgr (fst (fst (startMasterService newStreamMgr w)))))
    = set_timestampPersistInterval TIMESTAMP_PERSIST_INTERVAL (mgr w) /\
  snd (stopMasterService (mgr (fst (fst (startMasterService newStreamMgr w)))))
    = match newStreamMgr with
      | Ok s => [StreamMgrClose s; TimerStopAll (nextRef w); ChanClose (S (nextRef w))]
      | Err _ => [TimerStopAll (nextRef w); ChanClose (S (nextRef w))]
      end /\
  snd (startMasterService newStreamMgr w)
    = match newStreamMgr with Ok _ => None | Err e => Some e end /\
  timer (mgr (fst (fst (startMasterService newStreamMgr w)))) = Some (nextRef w) /\
  chans (fst (fst (startMasterService newStreamMgr w))) = chans w.
Proof.
  destruct w as [[r c h e s a t tc sc i cl] ch n].
  unfold servicesDown; simpl. intros (-> & -> & ->).
  destruct newStreamMgr; repeat split.
Qed.

Lemma step_keeps_closed (op : Op) (w : World) :
  isClosed (mgr w) = true -> isClosed (mgr (fst (step op w))) = true.
Proof.
  intros C. destruct op; simpl.
  - unfold startMasterService. destruct newStreamMgr; exact C.
  - unfold stopMasterService.
    pose proof (stopMasterServiceNoLock_fields (mgr w)) as F.
    destruct (stopMasterServiceNoLock (mgr w)); simpl in *.
    destruct F as (_&_&_&_&_&_&_&_&_&_&->). exact C.
  - unfold Close. now rewrite C.
  - unfold CleanupStabilityTimestamp.
    pose proof (stopMasterServiceNoLock_fields (mgr w)) as F.
    destruct (stopMasterServiceNoLock (mgr w)); simpl in *.
    destruct F as (_&_&_&_&_&_&_&_&_&_&->). exact C.
  - exact C.
  - unfold GetStabilityTimestampChannel. now case_match.
  - unfold notifyNewTimestamp, chanSend.
    repeat (case_match; simpl; try exact C); simplify_eq; exact C.
  - unfold chanReceive. now case_match.
Qed.

Lemma runLog_runOps (ops : list Op) :
  forall w, fst (runLog ops w) = runOps ops w.
Proof.
  unfold runOps. induction ops as [|op ops IH]; intros w; simpl; [reflexivity|].
  destruct (step op w) as [w1 e1] eqn:S; simpl.
  specialize (IH w1). destruct (runLog ops w1) as [w2 e2]; simpl in *.
  exact IH.
Qed.

(** X4: nothing reopens a manager: once [IsClose] answers true it does so
    after every further operation, and a closed manager can still be made to
    start its leader-only services, which a later [Close] then leaves
    running. *)
Theorem closed_stays_closed
    (ops : list Op) (newStreamMgr : result StreamManager) (w : World) :
  IsClose (mgr w) = true ->
  IsClose (mgr (runOps ops w)) = true /\
  timer (mgr (runOps [OpStartMasterService newStreamMgr; OpClose] w))
    = Some (nextRef w) /\
  snd (step OpClose (fst (step (OpStartMasterService newStreamMgr) w))) = [].
Proof.
  unfold IsClose. intros C. repeat split.
  - revert w C. unfold runOps.
    induction ops as [|op ops IH]; intros w C; simpl; [exact C|].
    apply IH. now apply step_keeps_closed.
  - unfold runOps; simpl. unfold startMasterService, Close.
    destruct newStreamMgr; simpl; rewrite C; reflexivity.
  - simpl. unfold startMasterService, Close.
    destruct newStreamMgr; simpl; rewrite C; reflexivity.
Qed.

Lemma step_collaborator_closes (op : Op) (w : World) :
  List.filter isCollaboratorClose (snd (step op w)) =
  match op with
  | OpClose => if isClosed (mgr w) then [] else closeCollaborators (mgr w)
  | _ => []
  end.
Proof.
  destruct op; simpl; try reflexivity.
  - unfold startMasterService.
    destruct newStreamMgr; simpl; destruct (admin (mgr w)); reflexivity.
  - unfold stopMasterService.
    pose proof (stopMasterServiceNoLock_effects (mgr w)) as E.
    destruct (stopMasterServiceNoLock (mgr w)) as [m1 e1]; simpl in *.
    rewrite E.
    destruct (streamMgr (mgr w)), (timer (mgr w)), (timekeeperStopCh (mgr w));
      reflexivity.
  - pose proof (stopMasterServiceNoLock_fields (mgr w)) as F.
    pose proof (stopMasterServiceNoLock_effects (mgr w)) as E.
    unfold Close. destruct (isClosed (mgr w)); [reflexivity|].
    destruct (stopMasterServiceNoLock (mgr w)) as [m1 e1]; simpl in *.
    destruct F as (_&_&_& Fr & Fc & Fh & Fe &_).
    rewrite List.filter_app, E. unfold closeCollaborators.
    rewrite Fr, Fc, Fh, Fe.
    destruct (streamMgr (mgr w)), (timer (mgr w)), (timekeeperStopCh (mgr w)),
      (repo (mgr w)), (coordinator (mgr w)), (eventMgr (mgr w)),
      (reqHandler (mgr w)); reflexivity.
  - unfold CleanupStabilityTimestamp.
    pose proof (stopMasterServiceNoLock_effects (mgr w)) as E.
    destruct (stopMasterServiceNoLock (mgr w)) as [m1 e1]; simpl in *.
    rewrite List.filter_app, E.
    destruct (streamMgr (mgr w)), (timer (mgr w)), (timekeeperStopCh (mgr w));
      reflexivity.
Qed.

Lemma step_Close_closes (w : World) :
  isClosed (mgr (fst (step OpClose w))) = true.
Proof.
  simpl. unfold Close. destruct (isClosed (mgr w)) eqn:C; simpl; [exact C|].
  destruct (stopMasterServiceNoLock (mgr w)); reflexivity.
Qed.

Lemma closed_run_closes_nothing (ops : list Op) :
  forall w, isClosed (mgr w) = true ->
  List.filter isCollaboratorClose (snd (runLog ops w)) = [].
Proof.
  induction ops as [|op ops IH]; intros w C; simpl; [reflexivity|].
  pose proof (step_collaborator_closes op w) as S.
  pose proof (step_keeps_closed op w C) as C'.
  destruct (step op w) as [w1 e1]; simpl in *.
  specialize (IH w1 C'). destruct (runLog ops w1) as [w2 e2]; simpl in *.
  rewrite List.filter_app, IH, S, app_nil_r.
  destruct op; try reflexivity. now rewrite C.
Qed.

(** X5: whatever is done with a manager, each of its collaborators is
    closed at most once: the closing calls of a run are either none or those
    of the one [Close] that found the manager open, made with the
    collaborators the manager started the run with. *)
Theorem collaborators_closed_at_most_once (ops : list Op) (w : World) :
  List.filter isCollaboratorClose (snd (runLog ops w)) = [] \/
  (isClosed (mgr w) = false /\
   List.filter isCollaboratorClose (snd (runLog ops w))
     = closeCollaborators (mgr w)).
Proof.
  revert w. induction ops as [|op ops IH]; intros w; simpl; [now left|].
  pose proof (step_collaborator_closes op w) as S.
  destruct (isClosed (mgr w)) eqn:C.
  - left. apply (closed_run_closes_nothing (op :: ops) w C).
  - assert (D : op = OpClose \/ op <> OpClose)
      by (destruct op; first [now left | right; discriminate]).
    destruct D as [->|N].
    + right. split; [reflexivity|].
      pose proof (step_Close_closes w) as C'.
      destruct (step OpClose w) as [w1 e1]; simpl in *.
      pose proof (closed_run_closes_nothing ops w1 C') as Z0.
      destruct (runLog ops w1) as [w2 e2]; simpl in *.
      now rewrite List.filter_app, Z0, S, app_nil_r.
    + assert (S' : List.filter isCollaboratorClose (snd (step op w)) = [])
        by (rewrite S; destruct op; congruence).
      assert (K : closeCollaborators (mgr (fst (step op w)))
                  = closeCollaborators (mgr w) /\
                  isClosed (mgr (fst (step op w))) = false).
      { clear IH S S'. destruct op; simpl; try congruence.
        - unfold startMasterService. destruct newStreamMgr; simpl; auto.
        - unfold stopMasterService.
          pose proof (stopMasterServiceNoLock_fields (mgr w)) as F.
          destruct (stopMasterServiceNoLock (mgr w)); simpl in *.
          destruct F as (_&_&_& Fr & Fc & Fh & Fe &_&_&_& Fcl).
          unfold closeCollaborators. rewrite Fr, Fc, Fh, Fe, Fcl. auto.
        - unfold CleanupStabilityTimestamp.
          pose proof (stopMasterServiceNoLock_fields (mgr w)) as F.
          destruct (stopMasterServiceNoLock (mgr w)); simpl in *.
          destruct F as (_&_&_& Fr & Fc & Fh & Fe &_&_&_& Fcl).
          unfold closeCollaborators. rewrite Fr, Fc, Fh, Fe, Fcl. auto.
        - auto.
        - unfold GetStabilityTimestampChannel. case_match; auto.
        - unfold notifyNewTimestamp, chanSend.
          repeat (case_match; simpl; auto); simplify_eq; auto.
        - unfold chanReceive. case_match; auto. }
      destruct K as [K1 K2].
      destruct (step op w) as [w1 e1]; simpl in *.
      specialize (IH w1). destruct (runLog ops w1) as [w2 e2]; simpl in *.
      rewrite List.filter_app, S'. simpl.
      destruct IH as [IH|[_ IH]]; [now left|right].
      split; [reflexivity|]. now rewrite IH.
Qed.

Lemma step_registrations (op : Op) (w : World) :
  (nextRef w <= nextRef (fst (step op w)))%nat /\
  (timestampCh (mgr (fst (step op w))) = timestampCh (mgr w) \/
   exists sid,
     op = OpGetStabilityTimestampChannel sid /\
     timestampCh (mgr w) !! sid = None /\
     timestampCh (mgr (fst (step op w)))
       = <[sid := nextRef w]> (timestampCh (mgr w)) /\
     nextRef (fst (step op w)) = S (nextRef w)).
Proof.
  destruct op; simpl.
  - unfold startMasterService. destruct newStreamMgr; simpl; split; auto; lia.
  - unfold stopMasterService.
    pose proof (stopMasterServiceNoLock_fields (mgr w)) as F.
    destruct (stopMasterServiceNoLock (mgr w)); simpl in *.
    split; [lia|left; intuition].
  - pose proof (Close_fields (mgr w)) as (_ & _ & F).
    destruct (Close (mgr w)); simpl in *. split; [lia|now left].
  - unfold CleanupStabilityTimestamp.
    pose proof (stopMasterServiceNoLock_fields (mgr w)) as F.
    destruct (stopMasterServiceNoLock (mgr w)); simpl in *.
    split; [lia|left; intuition].
  - split; [lia|now left].
  - unfold GetStabilityTimestampChannel.
    destruct (timestampCh (mgr w) !! streamId) eqn:L; simpl.
    + split; [lia|now left].
    + split; [lia|right]. exists streamId. auto.
  - unfold notifyNewTimestamp, chanSend.
    repeat (case_match; simpl; try (split; [lia|now left]));
      simplify_eq; simpl; split; try lia; now left.
  - unfold chanReceive. case_match; simpl; (split; [lia|now left]).
Qed.

Lemma step_channelsApart (op : Op) (w : World) :
  channelsAllocated w /\ channelsApart w ->
  channelsAllocated (fst (step op w)) /\ channelsApart (fst (step op w)).
Proof.
  intros [A P].
  destruct (step_registrations op w) as [N [E|(sid & _ & L & E & N')]].
  - split.
    + intros s ch. rewrite E. intros R. specialize (A s ch R). lia.
    + intros s1 s2 ch. rewrite E. apply P.
  - split.
    + intros s ch. rewrite E, N'.
      destruct (decide (sid = s)) as [->|D].
      * rewrite lookup_insert_eq. intros [= <-]. lia.
      * rewrite lookup_insert_ne by exact D. intros R.
        specialize (A s ch R). lia.
    + intros s1 s2 ch. rewrite E.
      destruct (decide (sid = s1)) as [<-|D1], (decide (sid = s2)) as [<-|D2];
        rewrite ?lookup_insert_eq, ?lookup_insert_ne by assumption.
      * reflexivity.
      * intros [= <-] R. specialize (A _ _ R). lia.
      * intros R [= <-]. specialize (A _ _ R). lia.
      * apply P.
Qed.

Lemma step_channelsBounded (op : Op) (w : World) :
  channelsBounded w -> channelsBounded (fst (step op w)).
Proof.
  intros B. destruct op; simpl.
  - unfold startMasterService. destruct newStreamMgr; exact B.
  - unfold stopMasterService.
    destruct (stopMasterServiceNoLock (mgr w)); exact B.
  - destruct (Close (mgr w)); exact B.
  - unfold CleanupStabilityTimestamp.
    destruct (stopMasterServiceNoLock (mgr w)); exact B.
  - exact B.
  - unfold GetStabilityTimestampChannel.
    destruct (timestampCh (mgr w) !! streamId); [exact B|]. simpl.
    intros ch c; simpl.
    destruct (decide (nextRef w = ch)) as [->|D].
    + rewrite lookup_insert_eq. intros [= <-]. unfold chLen; simpl. lia.
    + rewrite lookup_insert_ne by exact D. apply B.
  - unfold notifyNewTimestamp.
    destruct (unmarshallTimestamp (Timestamp wrapper)); [|exact B].
    destruct (timestampCh (mgr w) !! StreamId wrapper) as [ch|]; [|exact B].
    destruct (chans w !! ch) as [c|] eqn:C; [|exact B].
    destruct (Z.ltb_spec (chLen c) TIMESTAMP_NOTIFY_CH_SIZE) as [Lt|Ge];
      [|exact B].
    unfold chanSend. rewrite C.
    destruct (chLen c <? chCap c); [|exact B]. simpl.
    intros ch' c'; simpl.
    destruct (decide (ch = ch')) as [->|D].
    + rewrite lookup_insert_eq. intros [= <-].
      destruct (B _ _ C) as [K _]. unfold chLen in *; simpl.
      rewrite length_app; simpl. split; [exact K|lia].
    + rewrite lookup_insert_ne by exact D. apply B.
  - unfold chanReceive.
    destruct (chans w !! ch) as [c|] eqn:C; [|exact B].
    intros ch' c'; simpl.
    destruct (decide (ch = ch')) as [->|D].
    + rewrite lookup_insert_eq. intros [= <-].
      destruct (B _ _ C) as [K Le]. unfold chLen in *; simpl.
      split; [exact K|]. destruct (chBuf c); simpl in *; lia.
    + rewrite lookup_insert_ne by exact D. apply B.
Qed.

Lemma reachable_channels (w : World) :
  reachable w -> channelsAllocated w /\ channelsApart w /\ channelsBounded w.
Proof.
  induction 1 as [adm nr nh ne coord w e New | op w R (A & P & B)].
  - unfold NewIndexManagerInternal in New.
    destruct nr; [|discriminate]. destruct nh; [|discriminate].
    destruct ne; [|discriminate]. injection New as <- _.
    split; [|split].
    + intros sid ch; simpl. rewrite lookup_empty. discriminate.
    + intros sid1 sid2 ch; simpl. rewrite lookup_empty. discriminate.
    + intros ch c; simpl. rewrite lookup_empty. discriminate.
  - destruct (step_channelsApart op w (conj A P)) as [A' P'].
    split; [exact A'|]. split; [exact P'|]. now apply step_channelsBounded.
Qed.

(** X6: in a world a constructed manager can be in, no two streams share a
    notification channel, and the channel a first
    [GetStabilityTimestampChannel] makes for a stream is none of those
    already registered. *)
Theorem stream_channels_are_distinct (w : World) :
  reachable w ->
  (forall sid1 sid2 ch,
     timestampCh (mgr w) !! sid1 = Some ch ->
     timestampCh (mgr w) !! sid2 = Some ch ->
     sid1 = sid2) /\
  (forall sid sid' ch',
     timestampCh (mgr w) !! sid = None ->
     timestampCh (mgr w) !! sid' = Some ch' ->
     snd (GetStabilityTimestampChannel sid w) <> ch').
Proof.
  intros R. destruct (reachable_channels w R) as (A & P & _). split.
  - exact P.
  - intros sid sid' ch' L L'. unfold GetStabilityTimestampChannel.
    rewrite L. simpl. specialize (A _ _ L'). lia.
Qed.

(** X7: in a world a constructed manager can be in, the channel of every
    registered stream has capacity [TIMESTAMP_NOTIFY_CH_SIZE] and never
    holds more timestamps than that. *)
Theorem channels_hold_at_most_capacity (w : World) (sid : Z) (ch : nat) :
  reachable w ->
  timestampCh (mgr w) !! sid = Some ch ->
  exists c,
    chans w !! ch = Some c /\
    chCap c = TIMESTAMP_NOTIFY_CH_SIZE /\
    chLen c <= Z.max 0 TIMESTAMP_NOTIFY_CH_SIZE.
Proof.
  intros R L. destruct (reachable_invariant w R) as [_ S].
  destruct (reachable_channels w R) as (_ & _ & B).
  destruct (S _ _ L) as (c & C & _). exists c. split; [exact C|].
  exact (B _ _ C).
Qed.

(** X8: in a world a constructed manager can be in, [notifyNewTimestamp]
    changes nothing of the manager and nothing of the channel of any stream
    other than the one of its timestamp. *)
Theorem notify_reaches_only_its_stream
    (wrapper : timestampSerializable) (w : World) :
  reachable w ->
  mgr (fst (notifyNewTimestamp wrapper w)) = mgr w /\
  nextRef (fst (notifyNewTimestamp wrapper w)) = nextRef w /\
  (forall sid ch,
     sid <> StreamId wrapper ->
     timestampCh (mgr w) !! sid = Some ch ->
     chans (fst (notifyNewTimestamp wrapper w)) !! ch = chans w !! ch).
Proof.
  intros R. destruct (reachable_channels w R) as (_ & P & _).
  unfold notifyNewTimestamp.
  destruct (unmarshallTimestamp (Timestamp wrapper)); [|auto].
  destruct (timestampCh (mgr w) !! StreamId wrapper) as [ch0|] eqn:L0; [|auto].
  destruct (chans w !! ch0) as [c|] eqn:C; [|auto].
  destruct (chLen c <? TIMESTAMP_NOTIFY_CH_SIZE); [|auto].
  unfold chanSend. rewrite C.
  destruct (chLen c <? chCap c); [|auto]. simpl.
  repeat split. intros sid ch N L.
  apply lookup_insert_ne. intros ->. apply N. exact (P _ _ _ L L0).
Qed.

Local Ltac in_cases I :=
  simpl in I;
  repeat match type of I with
         | _ \/ _ => destruct I as [I|I]
         | False => contradiction
         end;
  try discriminate.

Lemma stopMasterServiceNoLock_refsFrom (b : nat) (m : IndexManager) :
  (forall t, timer m = Some t -> (b <= t)%nat) ->
  (forall c, timekeeperStopCh m = Some c -> (b <= c)%nat) ->
  timer (fst (stopMasterServiceNoLock m)) = None /\
  (forall c, timekeeperStopCh (fst (stopMasterServiceNoLock m)) = Some c ->
     (b <= c)%nat) /\
  (forall e r, In e (snd (stopMasterServiceNoLock m)) -> endsService r e ->
     (b <= r)%nat).
Proof.
  destruct m as [r0 c0 h0 e0 s a t tc sc i cl].
  unfold stopMasterServiceNoLock, endsService; simpl. intros T C.
  destruct s, t, sc; simpl; repeat split; try discriminate; auto;
    intros e r I [-> | ->]; in_cases I; injection I as <-; auto.
Qed.

Lemma step_refsFrom (b : nat) (op : Op) (w : World) :
  refsFrom b w ->
  refsFrom b (fst (step op w)) /\
  (forall e r, In e (snd (step op w)) -> endsService r e -> (b <= r)%nat).
Proof.
  intros (T & C & N).
  pose proof (stopMasterServiceNoLock_refsFrom b (mgr w) T C) as (St & Sc & Se).
  destruct op; simpl.
  - unfold startMasterService, refsFrom, endsService.
    destruct newStreamMgr; simpl; (split; [repeat split; try lia|]).
    1, 2, 4, 5: intros ? [= <-]; lia.
    all: intros e' r' I [-> | ->]; in_cases I;
      destruct (admin (mgr w)); discriminate.
  - unfold stopMasterService.
    destruct (stopMasterServiceNoLock (mgr w)) as [m1 e1]; simpl in *.
    split; [|exact Se]. unfold refsFrom; simpl.
    repeat split; auto. intros t0. rewrite St. discriminate.
  - unfold Close. destruct (isClosed (mgr w)); simpl.
    + split; [repeat split; auto|]. intros e' r' [].
    + pose proof (stopMasterServiceNoLock_fields (mgr w)) as F.
      destruct (stopMasterServiceNoLock (mgr w)) as [m1 e1]; simpl in *.
      split;
        [unfold refsFrom; simpl; repeat split; auto;
         intros t0; rewrite St; discriminate|].
      intros e' r' I E. apply in_app_or in I as [I|I]; [exact (Se e' r' I E)|].
      unfold closeCollaborators in I.
      destruct E as [-> | ->];
        destruct (repo m1), (coordinator m1), (eventMgr m1), (reqHandler m1);
        in_cases I.
  - unfold CleanupStabilityTimestamp.
    destruct (stopMasterServiceNoLock (mgr w)) as [m1 e1]; simpl in *.
    split;
      [unfold refsFrom; simpl; repeat split; auto;
       intros t0; rewrite St; discriminate|].
    intros e' r' I E. apply in_app_or in I as [I|I]; [exact (Se e' r' I E)|].
    destruct E as [-> | ->]; in_cases I.
  - split; [repeat split; auto|]. intros e' r' [].
  - split; [|intros e' r' []]. unfold GetStabilityTimestampChannel.
    destruct (timestampCh (mgr w) !! streamId); repeat split; simpl; auto.
  - split; [|intros e' r' []]. unfold notifyNewTimestamp, chanSend.
    repeat (case_match; simpl; try (repeat split; assumption));
      simplify_eq; repeat split; assumption.
  - split; [|intros e' r' []]. unfold chanReceive.
    case_match; repeat split; assumption.
Qed.

Lemma runLog_refsFrom (b : nat) (ops : list Op) :
  forall w, refsFrom b w ->
  forall e r, In e (snd (runLog ops w)) -> endsService r e -> (b <= r)%nat.
Proof.
  induction ops as [|op ops IH]; intros w R e r; simpl; [intros []|].
  destruct (step_refsFrom b op w R) as [R1 E1].
  destruct (step op w) as [w1 e1]; simpl in *.
  specialize (IH w1 R1). destruct (runLog ops w1) as [w2 e2]; simpl in *.
  intros I E. apply in_app_or in I as [I|I]; eauto.
Qed.

(** X19: [startMasterService] does not look whether the services already
    run. A second start stops nothing and takes the place of the first
    timer and stop channel in the manager; after it no operation ever stops
    that timer or closes that stop channel. *)
Theorem second_start_orphans_first_keeper
    (r1 r2 : result StreamManager) (ops : list Op) (w : World) :
  timer (mgr (fst (fst (startMasterService r1 w)))) = Some (nextRef w) /\
  timekeeperStopCh (mgr (fst (fst (startMasterService r1 w))))
    = Some (S (nextRef w)) /\
  (forall e r,
     In e (snd (fst (startMasterService r2 (fst (fst (startMasterService r1 w)))))) ->
     ~ endsService r e) /\
  (forall e,
     In e (snd (runLog ops
                 (fst (fst (startMasterService r2
                              (fst (fst (startMasterService r1 w)))))))) ->
     ~ endsService (nextRef w) e /\ ~ endsService (S (nextRef w)) e).
Proof.
  split; [unfold startMasterService; now destruct r1|].
  split; [unfold startMasterService; now destruct r1|].
  split.
  - intros e r I [-> | ->]; unfold startMasterService in I;
      destruct r1, r2; in_cases I; destruct (admin (mgr w)); discriminate.
  - intros e I.
    assert (R : refsFrom (S (S (nextRef w)))
                  (fst (fst (startMasterService r2
                               (fst (fst (startMasterService r1 w))))))).
    { unfold startMasterService, refsFrom. destruct r1, r2; simpl;
        repeat split; try lia; intros ? [= <-]; lia. }
    split; intros E; pose proof (runLog_refsFrom _ ops _ R e _ I E); lia.
Qed.

End ManagerMore.

(** ** More on the keeper *)

Section KeeperMore.
Context `{PackageDecls}.

Lemma to_uint64_range (x : Z) : 0 <= to_uint64 x < uint64_modulus.
Proof. unfold to_uint64. apply Z.mod_pos_bound. reflexivity. Qed.


Lemma sub64_cases (a b : Z) :
  0 <= a < uint64_modulus -> 0 <= b < uint64_modulus ->
  sub64 a b = if b <=? a then a - b else uint64_modulus - (b - a).
Proof.
  intros Ha Hb. unfold sub64.
  destruct (Z.leb_spec b a).
  - apply Z.mod_small. lia.
  - replace (a - b) with ((uint64_modulus - (b - a)) + (-1) * uint64_modulus)
      by lia.
    rewrite Z.mod_add by (unfold uint64_modulus; lia).
    apply Z.mod_small. lia.
Qed.

Lemma keeperAfter_lastPersistTime_range (its : list Iteration) :
  forall k : Keeper,
  0 <= lastPersistTime k < uint64_modulus ->
  0 <= lastPersistTime (keeperAfter k its) < uint64_modulus.
Proof.
  induction its as [|it its IH]; intros k R; simpl; [exact R|].
  apply IH. destruct (keeperBody_state it k) as (_ & _ & ->).
  destruct (persistSucceeded it k); [apply to_uint64_range | exact R].
Qed.

(** X9: a persist that succeeds writes every report the loop has received
    since it started, those of the passes that did not persist included. *)
Theorem successful_persist_saves_every_report
    (its : list Iteration) (it : Iteration) (k : Keeper)
    (held : option timestampListSerializable) :
  persistSucceeded it (keeperAfter k its) = true ->
  repoHolds held (passCalls (its ++ [it]) k)
    = Some (foldl addTimestamp (timestamps k) (itReport <$> (its ++ [it]))).
Proof.
  intros S. unfold passCalls.
  rewrite passLog_snoc, fmap_app, concat_app, repoHolds_app. simpl.
  rewrite app_nil_r, repoHolds_body, S.
  rewrite <- keeperAfter_snoc, keeperAfter_timestamps. reflexivity.
Qed.

(** X11: a closed inbound channel ends the loop as the stop signal does:
    the loop returns with the calls of the passes before it, and whatever
    its [select] would have taken afterwards plays no part. *)
Theorem closed_input_ends_the_loop
    (startAt : Z) (saved : result timestampListSerializable)
    (before : list Iteration) (rest rest' : list Selected) :
  runTimestampKeeper startAt saved ((Inbound <$> before) ++ InboundClosed :: rest)
    = (keeperAfter (keeperInit startAt saved) before,
       RepoGetStabilityTimestamps :: passCalls before (keeperInit startAt saved),
       true) /\
  runTimestampKeeper startAt saved ((Inbound <$> before) ++ InboundClosed :: rest)
    = runTimestampKeeper startAt saved ((Inbound <$> before) ++ StopSignal :: rest').
Proof.
  assert (L : forall k : Keeper,
    keeperLoop ((Inbound <$> before) ++ InboundClosed :: rest) k
      = (keeperAfter k before, passCalls before k, true)).
  { unfold passCalls. induction before as [|it its IH]; intros k; simpl;
      [reflexivity|].
    destruct (keeperBody it k) as [k1 e1]; simpl. now rewrite IH. }
  unfold runTimestampKeeper. rewrite L, keeperLoop_stop. split; reflexivity.
Qed.

(** X12: the persist is due by elapsed time exactly when the [uint64]
    distance from [lastPersistTime] to the clock exceeds the interval; when
    the clock reads earlier than [lastPersistTime] that distance wraps to
    [2^64] minus the step back. *)
Theorem persistDue_by_wrapped_distance
    (startAt : Z) (saved : result timestampListSerializable)
    (before : list Iteration) (it : Iteration) :
  persistDue it (keeperAfter (keeperInit startAt saved) before) =
  (persistTimestamp (keeperAfter (keeperInit startAt saved) before)
   || (itInterval it <?
         if lastPersistTime (keeperAfter (keeperInit startAt saved) before)
              <=? to_uint64 (itNow it)
         then to_uint64 (itNow it)
              - lastPersistTime (keeperAfter (keeperInit startAt saved) before)
         else uint64_modulus
              - (lastPersistTime (keeperAfter (keeperInit startAt saved) before)
                 - to_uint64 (itNow it)))).
Proof.
  unfold persistDue. rewrite sub64_cases; [reflexivity | apply to_uint64_range |].
  apply keeperAfter_lastPersistTime_range. simpl. apply to_uint64_range.
Qed.

Lemma passCalls_cons (it : Iteration) (its : list Iteration) (k : Keeper) :
  passCalls (it :: its) k
    = snd (keeperBody it k) ++ passCalls its (fst (keeperBody it k)).
Proof. reflexivity. Qed.

(** X13: over a whole run the requests the loop submits are the
    notifications of the reports that marshal, one each, in the order the
    reports arrived; it submits no other request. *)
Theorem run_notifies_in_arrival_order (its : list Iteration) (k : Keeper) :
  List.filter isRequest (passCalls its k) =
  concat ((fun it =>
             match marshallTimestampSerializable (itReport it) with
             | Ok data =>
                 [CoordinatorNewRequest (to_uint64 (itRequestAt it))
                    OPCODE_NOTIFY_TIMESTAMP "Stability Timestamp" (Some data)
                    (itAccepted it)]
             | Err _ => []
             end) <$> its).
Proof.
  revert k. induction its as [|it its IH]; intros k; [reflexivity|].
  rewrite passCalls_cons, List.filter_app, IH. simpl. f_equal.
  unfold keeperBody, notifyRequest.
  destruct (persistDue it k), (itSetOk it),
    (marshallTimestampSerializable (itReport it)); reflexivity.
Qed.




End KeeperMore.

(** ** The key gatherer *)

Section DatapathFacts.
Import Datapath.
Context `{CommandCodes}.

Local Ltac int_bounds :=
  let a := eval vm_compute in (2 ^ 63) in
  let b := eval vm_compute in (2 ^ 64) in
  change (2 ^ 63) with a in *; change (2 ^ 64) with b in *.

Lemma wrap_int_small (x : Z) : - 2 ^ 63 <= x < 2 ^ 63 -> wrap_int x = x.
Proof. intros R. unfold wrap_int. int_bounds. rewrite Z.mod_small; lia. Qed.

Lemma wrap_int_add_l (a b : Z) : wrap_int (wrap_int a + b) = wrap_int (a + b).
Proof.
  unfold wrap_int. f_equal.
  replace ((a + 2 ^ 63) mod 2 ^ 64 - 2 ^ 63 + b + 2 ^ 63)
    with ((a + 2 ^ 63) mod 2 ^ 64 + b) by ring.
  rewrite Zplus_mod_idemp_l. f_equal. ring.
Qed.

Lemma gatherKvs_mutations (kvs : list KeyVersions) :
  forall n st n' st',
  gatherKvs kvs (wrap_int n, st) = Some (n', st') ->
  n' = wrap_int (n + Z.of_nat (length kvs)).
Proof.
  induction kvs as [|kv kvs IH]; intros n st n' st'; simpl.
  - intros [= <- _]. f_equal. lia.
  - destruct (gatherCommands _ _ _ _ _ st) as [st1|]; [|discriminate].
    rewrite wrap_int_add_l. intros G. rewrite (IH _ _ _ _ G). f_equal. lia.
Qed.

Lemma gatherVbs_mutations (vbs : list VbKeyVersions) :
  forall n st n' st',
  gatherVbs vbs (wrap_int n, st) = Some (n', st') ->
  n' = wrap_int (n + Z.of_nat (length (allKvs vbs))).
Proof.
  unfold allKvs.
  induction vbs as [|vb vbs IH]; intros n st n' st';
    rewrite ?fmap_cons; cbn [concat gatherVbs].
  - intros [= <- _]. f_equal. simpl. lia.
  - destruct (gatherKvs (Kvs vb) (wrap_int n, st)) as [[n1 st1]|] eqn:G;
      [|discriminate].
    rewrite (gatherKvs_mutations _ _ _ _ _ G). intros G'.
    rewrite (IH _ _ _ _ G'). rewrite length_app. f_equal. lia.
Qed.

(** X14: when [gatherKeys] returns, the number it returns is the number of
    key versions in its input, whatever their commands; it wraps only
    beyond the range of [int]. *)
Theorem gatherKeys_counts_key_versions
    (vbs : list VbKeyVersions) (commandWise : gmap Z Z)
    (keys : gmap Z (gmap string (list string)))
    (n : Z) (st : gmap Z Z * gmap Z (gmap string (list string))) :
  gatherKeys vbs commandWise keys = Some (n, st) ->
  Z.of_nat (length (allKvs vbs)) < 2 ^ 63 ->
  n = Z.of_nat (length (allKvs vbs)).
Proof.
  unfold gatherKeys. intros G B.
  change 0 with (wrap_int 0) in G.
  rewrite (gatherVbs_mutations _ _ _ _ _ G). apply wrap_int_small.
  int_bounds. lia.
Qed.

Lemma countKeysAndDocs_fold (entries : list (string * list string)) :
  forall a b,
  foldl (fun acc entry =>
           (wrap_int (fst acc + 1),
            wrap_int (snd acc + Z.of_nat (length (snd entry)))))
        (wrap_int a, wrap_int b) entries
  = (wrap_int (a + Z.of_nat (length entries)),
     wrap_int (b + Z.of_nat (sum_list_with (fun p => length (snd p)) entries))).
Proof.
  induction entries as [|e es IH]; intros a b; simpl.
  - f_equal; f_equal; lia.
  - rewrite !wrap_int_add_l, IH. f_equal; f_equal; lia.
Qed.

(** X15: in whatever order the map is ranged over, [countKeysAndDocs]
    returns the number of keys of the map and the number of documents under
    them (each as an [int]). *)
Theorem countKeysAndDocs_any_order
    (inner : gmap string (list string)) (entries : list (string * list string)) :
  Permutation entries (map_to_list inner) ->
  countKeysAndDocs entries
    = (wrap_int (Z.of_nat (size inner)), wrap_int (Z.of_nat (docsOf inner))).
Proof.
  intros P. unfold countKeysAndDocs, docsOf.
  change (0, 0) with (wrap_int 0, wrap_int 0).
  rewrite countKeysAndDocs_fold.
  rewrite (Permutation_length P), length_map_to_list.
  now rewrite (sum_list_with_Permutation_proper _ _ _ P).
Qed.

(** *** When it panics *)

Lemma appendDoc_dom (uuid : Z) (key docid : string)
    (keys keys' : gmap Z (gmap string (list string))) :
  appendDoc uuid key docid keys = Some keys' -> dom keys' = dom keys.
Proof.
  unfold appendDoc. destruct (keys !! uuid) eqn:L; [|discriminate].
  intros [= <-]. apply dom_insert_lookup_L. eauto.
Qed.

Lemma gatherCommand_dom (docid : string) (uuids : list Z) (seckeys : list string)
    (i : nat) (command : Z) (st st' : gmap Z Z * gmap Z (gmap string (list string))) :
  gatherCommand docid uuids seckeys i command st = Some st' ->
  dom (snd st') = dom (snd st).
Proof.
  unfold gatherCommand.
  destruct (command mod 256 =? StreamBegin); [now intros [= <-]|].
  destruct (command mod 256 =? Upsert); [|now intros [= <-]].
  destruct (uuids !! i); [|discriminate].
  destruct (seckeys !! i); [|discriminate].
  destruct (appendDoc _ _ _ _) eqn:A; [|discriminate].
  intros [= <-]. simpl. exact (appendDoc_dom _ _ _ _ _ A).
Qed.

Lemma gatherCommand_is_Some (docid : string) (uuids : list Z) (seckeys : list string)
    (i : nat) (command : Z) (st : gmap Z Z * gmap Z (gmap string (list string))) :
  is_Some (gatherCommand docid uuids seckeys i command st) <->
  (isUpsert command = true ->
   exists uuid,
     uuids !! i = Some uuid /\ uuid ∈ dom (snd st) /\ is_Some (seckeys !! i)).
Proof.
  unfold gatherCommand, isUpsert, appendDoc.
  destruct (command mod 256 =? StreamBegin); simpl.
  { split; [discriminate | eauto]. }
  destruct (command mod 256 =? Upsert); simpl.
  2: { split; [discriminate | eauto]. }
  destruct (uuids !! i) as [uuid|].
  2: { split; [intros [? ?]; discriminate|].
       intros E. destruct (E eq_refl) as (? & ? & _). discriminate. }
  destruct (seckeys !! i) as [key|].
  2: { split; [intros [? ?]; discriminate|].
       intros E. destruct (E eq_refl) as (? & _ & _ & [? ?]). discriminate. }
  destruct (snd st !! uuid) as [inner|] eqn:L.
  - split; [|eauto]. intros _ _. exists uuid. repeat split; eauto.
    apply elem_of_dom. eauto.
  - split; [intros [? ?]; discriminate|].
    intros E. destruct (E eq_refl) as (u & [= <-] & D & _).
    apply elem_of_dom in D as [? D]. congruence.
Qed.

Lemma gatherCommands_dom (docid : string) (uuids : list Z) (seckeys : list string)
    (commands : list Z) :
  forall (i : nat) (st st' : gmap Z Z * gmap Z (gmap string (list string))),
  gatherCommands docid uuids seckeys i commands st = Some st' ->
  dom (snd st') = dom (snd st).
Proof.
  induction commands as [|command rest IH]; intros i st st'; simpl.
  - now intros [= <-].
  - destruct (gatherCommand docid uuids seckeys i command st) as [st1|] eqn:G;
      [|discriminate].
    intros G'. rewrite (IH _ _ _ G'). exact (gatherCommand_dom _ _ _ _ _ _ _ G).
Qed.

Lemma gatherCommands_is_Some (docid : string) (uuids : list Z) (seckeys : list string)
    (commands : list Z) :
  forall (i : nat) (st : gmap Z Z * gmap Z (gmap string (list string))),
  is_Some (gatherCommands docid uuids seckeys i commands st) <->
  (forall j command,
     commands !! j = Some command -> isUpsert command = true ->
     exists uuid,
       uuids !! (i + j)%nat = Some uuid /\ uuid ∈ dom (snd st) /\
       is_Some (seckeys !! (i + j)%nat)).
Proof.
  induction commands as [|command rest IH]; intros i st; simpl.
  - split; [|eauto]. intros _ j c. rewrite lookup_nil. discriminate.
  - pose proof (gatherCommand_is_Some docid uuids seckeys i command st) as HS.
    destruct (gatherCommand docid uuids seckeys i command st) as [st1|] eqn:G.
    + rewrite IH, (gatherCommand_dom _ _ _ _ _ _ _ G). split.
      * intros R [|j] c; simpl.
        -- intros [= <-]. rewrite Nat.add_0_r. apply HS. eauto.
        -- intros L U. replace (i + S j)%nat with (S i + j)%nat by lia. eauto.
      * intros R j c L U.
        replace (S i + j)%nat with (i + S j)%nat by lia. apply (R (S j) c); auto.
    + split; [intros [? ?]; discriminate|]. intros R. exfalso.
      assert (N : ~ is_Some (None : option (gmap Z Z * gmap Z (gmap string (list string)))))
        by (intros [? ?]; discriminate).
      apply N, HS. intros U. specialize (R 0%nat command eq_refl U).
      now rewrite Nat.add_0_r in R.
Qed.

Lemma gatherKvs_dom (kvs : list KeyVersions) :
  forall acc acc',
  gatherKvs kvs acc = Some acc' -> dom (snd (snd acc')) = dom (snd (snd acc)).
Proof.
  induction kvs as [|kv kvs IH]; intros acc acc'; simpl.
  - now intros [= <-].
  - destruct (gatherCommands _ _ _ _ _ (snd acc)) as [st1|] eqn:G; [|discriminate].
    intros G'. rewrite (IH _ _ G'). simpl. exact (gatherCommands_dom _ _ _ _ _ _ _ G).
Qed.

Lemma upsertsResolve_commands (instances : gset Z) (kv : KeyVersions)
    (st : gmap Z Z * gmap Z (gmap string (list string))) :
  dom (snd st) = instances ->
  is_Some (gatherCommands (Docid kv) (Uuids kv) (Keys kv) 0 (Commands kv) st) <->
  upsertsResolve instances kv.
Proof.
  intros <-. rewrite gatherCommands_is_Some. unfold upsertsResolve.
  split; intros R j c L U; apply (R j c L U).
Qed.

Lemma gatherKvs_is_Some (kvs : list KeyVersions) :
  forall acc,
  is_Some (gatherKvs kvs acc) <->
  Forall (upsertsResolve (dom (snd (snd acc)))) kvs.
Proof.
  induction kvs as [|kv kvs IH]; intros acc; simpl.
  - split; [constructor | eauto].
  - pose proof (upsertsResolve_commands (dom (snd (snd acc))) kv (snd acc) eq_refl) as HS.
    destruct (gatherCommands _ _ _ _ _ (snd acc)) as [st1|] eqn:G.
    + rewrite IH. simpl. rewrite (gatherCommands_dom _ _ _ _ _ _ _ G).
      split.
      * intros F. constructor; [apply HS; eauto | exact F].
      * intros F. now inversion F.
    + split; [intros [? ?]; discriminate|]. intros F. inversion F as [|? ? R _]; subst.
      apply HS in R as [? ?]. discriminate.
Qed.

Lemma gatherVbs_is_Some (vbs : list VbKeyVersions) :
  forall acc,
  (is_Some (gatherVbs vbs acc) <->
   Forall (upsertsResolve (dom (snd (snd acc)))) (allKvs vbs)) /\
  (forall acc', gatherVbs vbs acc = Some acc' ->
     dom (snd (snd acc')) = dom (snd (snd acc))).
Proof.
  unfold allKvs.
  induction vbs as [|vb vbs IH]; intros acc;
    rewrite ?fmap_cons; cbn [concat gatherVbs].
  - split; [split; [constructor | eauto]|]. now intros acc' [= <-].
  - pose proof (gatherKvs_is_Some (Kvs vb) acc) as HS.
    destruct (gatherKvs (Kvs vb) acc) as [acc1|] eqn:G.
    + pose proof (gatherKvs_dom _ _ _ G) as D.
      destruct (IH acc1) as [I1 I2]. rewrite D in I1, I2. split.
      * rewrite I1, Forall_app.
        split; [intros F; split; [apply HS; eauto | exact F]|].
        intros [_ F]. exact F.
      * exact I2.
    + split; [|discriminate]. split; [intros [? ?]; discriminate|].
      rewrite Forall_app. intros [F _]. apply HS in F as [? ?]. discriminate.
Qed.

(** X16: [gatherKeys] runs to its end exactly when every upsert among the
    commands finds an instance id and a key at its own index and that
    instance has an entry in [keys]; in every other case it panics. An
    instance is never added to [keys]. *)
Theorem gatherKeys_returns_iff
    (vbs : list VbKeyVersions) (commandWise : gmap Z Z)
    (keys : gmap Z (gmap string (list string))) :
  (is_Some (gatherKeys vbs commandWise keys) <->
   Forall (upsertsResolve (dom keys)) (allKvs vbs)) /\
  (forall n st, gatherKeys vbs commandWise keys = Some (n, st) ->
     dom (snd st) = dom keys).
Proof.
  unfold gatherKeys.
  destruct (gatherVbs_is_Some vbs (0, (commandWise, keys))) as [I1 I2].
  split; [exact I1|]. intros n st G. exact (I2 _ G).
Qed.

(** *** What it leaves in the maps *)

Lemma docsOf_append (inner : gmap string (list string)) (key docid : string) :
  docsOf (<[key := default [] (inner !! key) ++ [docid]]> inner)
    = Datatypes.S (docsOf inner).
Proof.
  unfold docsOf. destruct (inner !! key) as [docs|] eqn:L; simpl.
  - rewrite <- insert_delete_eq.
    rewrite map_to_list_insert by apply lookup_delete_eq.
    rewrite <- (map_to_list_delete inner key docs L). simpl.
    rewrite length_app. simpl. lia.
  - rewrite map_to_list_insert by exact L. reflexivity.
Qed.

Lemma keysGrow_refl (keys : gmap Z (gmap string (list string))) :
  keysGrow (fun _ => 0%nat) keys keys.
Proof.
  split; [reflexivity|]. intros uuid inner L. exists inner.
  repeat split; [exact L | lia |]. intros key docs K. exists [].
  now rewrite app_nil_r.
Qed.

Lemma keysGrow_trans (n1 n2 : Z -> nat)
    (a b c : gmap Z (gmap string (list string))) :
  keysGrow n1 a b -> keysGrow n2 b c ->
  keysGrow (fun u => (n1 u + n2 u)%nat) a c.
Proof.
  intros [D1 G1] [D2 G2]. split; [congruence|].
  intros uuid inner L.
  destruct (G1 _ _ L) as (inner1 & L1 & N1 & P1).
  destruct (G2 _ _ L1) as (inner2 & L2 & N2 & P2).
  exists inner2. repeat split; [exact L2 | lia |].
  intros key docs K.
  destruct (P1 _ _ K) as (more1 & K1). destruct (P2 _ _ K1) as (more2 & K2).
  exists (more1 ++ more2). now rewrite app_assoc.
Qed.

Lemma keysGrow_ext (n n' : Z -> nat) (a b : gmap Z (gmap string (list string))) :
  (forall u, n u = n' u) -> keysGrow n a b -> keysGrow n' a b.
Proof.
  intros E [D G]. split; [exact D|]. intros uuid inner L.
  destruct (G _ _ L) as (inner' & L' & N & P). exists inner'.
  rewrite <- E. auto.
Qed.

Lemma appendDoc_grows (uuid : Z) (key docid : string)
    (keys keys' : gmap Z (gmap string (list string))) :
  appendDoc uuid key docid keys = Some keys' ->
  keysGrow (fun u => if bool_decide (u = uuid) then 1%nat else 0%nat) keys keys'.
Proof.
  unfold appendDoc. destruct (keys !! uuid) as [inner0|] eqn:L0; [|discriminate].
  intros [= <-]. split; [apply dom_insert_lookup_L; eauto|].
  intros u inner L. case_bool_decide as E.
  - subst u. rewrite L0 in L. injection L as <-.
    eexists. rewrite lookup_insert_eq. split; [reflexivity|].
    split; [rewrite docsOf_append; lia|].
    intros key' docs K. destruct (decide (key = key')) as [<-|N].
    + rewrite lookup_insert_eq, K. simpl. eauto.
    + rewrite lookup_insert_ne by exact N. exists []. now rewrite app_nil_r.
  - exists inner. rewrite lookup_insert_ne by congruence.
    repeat split; [exact L | lia |]. intros key' docs K. exists [].
    now rewrite app_nil_r.
Qed.

Lemma gatherCommand_grows (docid : string) (uuids : list Z) (seckeys : list string)
    (i : nat) (command : Z) (st st' : gmap Z Z * gmap Z (gmap string (list string))) :
  gatherCommand docid uuids seckeys i command st = Some st' ->
  keysGrow
    (fun u => if isUpsert command && bool_decide (uuids !! i = Some u)
              then 1%nat else 0%nat)
    (snd st) (snd st').
Proof.
  unfold gatherCommand, isUpsert.
  destruct (command mod 256 =? StreamBegin); simpl.
  { intros [= <-]. apply keysGrow_refl. }
  destruct (command mod 256 =? Upsert); simpl.
  2: { intros [= <-]. apply keysGrow_refl. }
  destruct (uuids !! i) as [uuid|]; [|discriminate].
  destruct (seckeys !! i) as [key|]; [|discriminate].
  destruct (appendDoc uuid key docid (snd st)) as [keys'|] eqn:A; [|discriminate].
  intros [= <-]. simpl.
  eapply keysGrow_ext; [|exact (appendDoc_grows _ _ _ _ _ A)].
  intros u. simpl. repeat case_bool_decide; congruence.
Qed.

Lemma gatherCommands_grows (docid : string) (uuids : list Z) (seckeys : list string)
    (commands : list Z) :
  forall (i : nat) (st st' : gmap Z Z * gmap Z (gmap string (list string))),
  gatherCommands docid uuids seckeys i commands st = Some st' ->
  keysGrow (fun u => upsertsIn u uuids i commands) (snd st) (snd st').
Proof.
  induction commands as [|command rest IH]; intros i st st'; simpl.
  - intros [= <-]. apply keysGrow_refl.
  - destruct (gatherCommand docid uuids seckeys i command st) as [st1|] eqn:G;
      [|discriminate].
    intros G'.
    exact (keysGrow_trans _ _ _ _ _ (gatherCommand_grows _ _ _ _ _ _ _ G)
             (IH _ _ _ G')).
Qed.

Lemma gatherKvs_grows (kvs : list KeyVersions) :
  forall acc acc',
  gatherKvs kvs acc = Some acc' ->
  keysGrow (fun u => upsertsFor u kvs) (snd (snd acc)) (snd (snd acc')).
Proof.
  induction kvs as [|kv kvs IH]; intros acc acc'; simpl.
  - intros [= <-]. apply keysGrow_refl.
  - destruct (gatherCommands _ _ _ _ _ (snd acc)) as [st1|] eqn:G; [|discriminate].
    intros G'.
    exact (keysGrow_trans _ _ _ _ _ (gatherCommands_grows _ _ _ _ _ _ _ G)
             (IH _ _ G')).
Qed.

Lemma gatherVbs_grows (vbs : list VbKeyVersions) :
  forall acc acc',
  gatherVbs vbs acc = Some acc' ->
  keysGrow (fun u => upsertsFor u (allKvs vbs)) (snd (snd acc)) (snd (snd acc')).
Proof.
  unfold allKvs.
  induction vbs as [|vb vbs IH]; intros acc acc';
    rewrite ?fmap_cons; cbn [concat gatherVbs].
  - intros [= <-]. apply keysGrow_refl.
  - destruct (gatherKvs (Kvs vb) acc) as [acc1|] eqn:G; [|discriminate].
    intros G'.
    eapply keysGrow_ext;
      [|exact (keysGrow_trans _ _ _ _ _ (gatherKvs_grows _ _ _ G) (IH _ _ G'))].
    intros u. unfold upsertsFor. now rewrite sum_list_with_app.
Qed.

(** X17: when [gatherKeys] returns, every instance of [keys] is still
    there; under each of its keys the documents it had come first, in their
    order, new ones only after them; and the documents under an instance
    are more by the number of upserts the input has for it. *)
Theorem gatherKeys_only_appends
    (vbs : list VbKeyVersions) (commandWise : gmap Z Z)
    (keys : gmap Z (gmap string (list string)))
    (n : Z) (st : gmap Z Z * gmap Z (gmap string (list string)))
    (uuid : Z) (inner : gmap string (list string)) :
  gatherKeys vbs commandWise keys = Some (n, st) ->
  keys !! uuid = Some inner ->
  exists inner',
    snd st !! uuid = Some inner' /\
    docsOf inner' = (docsOf inner + upsertsFor uuid (allKvs vbs))%nat /\
    forall key docs, inner !! key = Some docs ->
      exists more, inner' !! key = Some (docs ++ more).
Proof.
  unfold gatherKeys. intros G L.
  destruct (gatherVbs_grows _ _ _ G) as [_ K]. exact (K _ _ L).
Qed.

Lemma countedUp_add (k1 k2 : nat) (entry : option Z) :
  countedUp k2 (countedUp k1 entry) = countedUp (k1 + k2) entry.
Proof.
  destruct k1 as [|k1]; [reflexivity|].
  destruct k2 as [|k2]; simpl.
  - now rewrite Nat.add_0_r.
  - f_equal. rewrite wrap_int_add_l. f_equal. lia.
Qed.

Lemma gatherCommands_commandWise (docid : string) (uuids : list Z)
    (seckeys : list string) (commands : list Z) (cmd : Z) :
  forall (i : nat) (st st' : gmap Z Z * gmap Z (gmap string (list string))),
  gatherCommands docid uuids seckeys i commands st = Some st' ->
  fst st' !! cmd =
    countedUp (length (List.filter (fun command => command mod 256 =? cmd) commands))
      (fst st !! cmd).
Proof.
  induction commands as [|command rest IH]; intros i st st'; simpl.
  - now intros [= <-].
  - destruct (gatherCommand docid uuids seckeys i command st) as [st1|] eqn:G;
      [|discriminate].
    intros G'. rewrite (IH _ _ _ G').
    assert (E : fst st1 =
                <[command mod 256 :=
                    wrap_int (default 0 (fst st !! (command mod 256)) + 1)]> (fst st)).
    { unfold gatherCommand in G.
      repeat (case_match; try discriminate); now injection G as <-. }
    rewrite E. destruct (Z.eqb_spec (command mod 256) cmd) as [->|N]; simpl.
    + rewrite lookup_insert_eq.
      change (Some (wrap_int (default 0 (fst st !! cmd) + 1)))
        with (countedUp 1 (fst st !! cmd)).
      now rewrite countedUp_add.
    + now rewrite lookup_insert_ne.
Qed.

Lemma gatherKvs_commandWise (kvs : list KeyVersions) (cmd : Z) :
  forall acc acc',
  gatherKvs kvs acc = Some acc' ->
  fst (snd acc') !! cmd = countedUp (occurrences cmd kvs) (fst (snd acc) !! cmd).
Proof.
  unfold occurrences.
  induction kvs as [|kv kvs IH]; intros acc acc'; simpl.
  - now intros [= <-].
  - destruct (gatherCommands _ _ _ _ _ (snd acc)) as [st1|] eqn:G; [|discriminate].
    intros G'. rewrite (IH _ _ G'). simpl.
    rewrite (gatherCommands_commandWise _ _ _ _ cmd _ _ _ G).
    apply countedUp_add.
Qed.

Lemma gatherVbs_commandWise (vbs : list VbKeyVersions) (cmd : Z) :
  forall acc acc',
  gatherVbs vbs acc = Some acc' ->
  fst (snd acc') !! cmd
    = countedUp (occurrences cmd (allKvs vbs)) (fst (snd acc) !! cmd).
Proof.
  unfold allKvs.
  induction vbs as [|vb vbs IH]; intros acc acc';
    rewrite ?fmap_cons; cbn [concat gatherVbs].
  - now intros [= <-].
  - destruct (gatherKvs (Kvs vb) acc) as [acc1|] eqn:G; [|discriminate].
    intros G'. rewrite (IH _ _ G'), (gatherKvs_commandWise _ cmd _ _ G).
    rewrite countedUp_add. unfold occurrences. now rewrite sum_list_with_app.
Qed.

(** X18: when [gatherKeys] returns, the entry of [commandWise] for a
    command byte is its old entry (0 without one) plus the number of
    commands of the input with that byte, as an [int]; a byte that does not
    occur keeps its entry, or stays without one. *)
Theorem gatherKeys_counts_commands
    (vbs : list VbKeyVersions) (commandWise : gmap Z Z)
    (keys : gmap Z (gmap string (list string)))
    (n : Z) (st : gmap Z Z * gmap Z (gmap string (list string))) (cmd : Z) :
  gatherKeys vbs commandWise keys = Some (n, st) ->
  fst st !! cmd = countedUp (occurrences cmd (allKvs vbs)) (commandWise !! cmd).
Proof.
  unfold gatherKeys. intros G.
  exact (gatherVbs_commandWise _ cmd _ _ G).
Qed.

End DatapathFacts.

(** ** The further theorems at work *)

Lemma start_then_stop_restores_witness :
  servicesDown (mgr exampleNew) /\
  fst (stopMasterService (H := exampleDecls)
         (mgr (fst (fst (startMasterService (H := exampleDecls)
                           (Err (CollaboratorError "no stream manager"))
                           exampleNew)))))
    = set_timestampPersistInterval 100 (mgr exampleNew).
Proof.
  assert (D : servicesDown (mgr exampleNew)) by (repeat split).
  exact (conj D
    (proj1 (start_then_stop_restores (H := exampleDecls)
              (Err (CollaboratorError "no stream manager")) exampleNew D))).
Defined.

Lemma closed_stays_closed_witness :
  IsClose (mgr (fst (step (H := exampleDecls) OpClose exampleLeader))) = true /\
  IsClose
    (mgr (runOps (H := exampleDecls)
            [OpStartMasterService (Ok 9%nat); OpGetStabilityTimestampChannel 3]
            (fst (step (H := exampleDecls) OpClose exampleLeader))))
    = true.
Proof.
  assert (C : IsClose (mgr (fst (step (H := exampleDecls) OpClose exampleLeader)))
              = true) by reflexivity.
  exact (conj C
    (proj1 (closed_stays_closed (H := exampleDecls)
              [OpStartMasterService (Ok 9%nat); OpGetStabilityTimestampChannel 3]
              (Ok 9%nat)
              (fst (step (H := exampleDecls) OpClose exampleLeader)) C))).
Defined.

Lemma stream_channels_are_distinct_witness :
  reachable (H := exampleDecls) exampleLeader /\
  snd (GetStabilityTimestampChannel (H := exampleDecls) 2 exampleLeader) <> 2%nat.
Proof.
  assert (R : reachable (H := exampleDecls) exampleLeader)
    by exact exampleLeader_reachable.
  exact (conj R
    (proj2 (stream_channels_are_distinct (H := exampleDecls) exampleLeader R)
       2 1 2%nat eq_refl eq_refl)).
Defined.

Lemma channels_hold_at_most_capacity_witness :
  reachable (H := exampleDecls) exampleLeader /\
  timestampCh (mgr exampleLeader) !! 1 = Some 2%nat /\
  exists c,
    chans exampleLeader !! 2%nat = Some c /\
    chCap c = 2 /\ chLen c <= Z.max 0 2.
Proof.
  assert (R : reachable (H := exampleDecls) exampleLeader)
    by exact exampleLeader_reachable.
  assert (L : timestampCh (mgr exampleLeader) !! 1 = Some 2%nat) by reflexivity.
  exact (conj R (conj L
    (channels_hold_at_most_capacity (H := exampleDecls) exampleLeader 1 2%nat R L))).
Defined.

Lemma notify_reaches_only_its_stream_witness :
  reachable (H := exampleDecls) exampleLeader /\
  mgr (fst (notifyNewTimestamp (H := exampleDecls) exampleReport2 exampleLeader))
    = mgr exampleLeader.
Proof.
  assert (R : reachable (H := exampleDecls) exampleLeader)
    by exact exampleLeader_reachable.
  exact (conj R
    (proj1 (notify_reaches_only_its_stream (H := exampleDecls)
              exampleReport2 exampleLeader R))).
Defined.

Lemma successful_persist_saves_every_report_witness :
  persistSucceeded exampleAgain1 (keeperAfter exampleKeeper [exampleFailed1])
    = true /\
  repoHolds None (passCalls ([exampleFailed1] ++ [exampleAgain1]) exampleKeeper)
    = Some (foldl (addTimestamp (PackageDecls := exampleDecls))
              (timestamps exampleKeeper)
              (itReport <$> ([exampleFailed1] ++ [exampleAgain1]))).
Proof.
  assert (S : persistSucceeded exampleAgain1
                (keeperAfter exampleKeeper [exampleFailed1]) = true)
    by reflexivity.
  exact (conj S
    (successful_persist_saves_every_report (H := exampleDecls)
       [exampleFailed1] exampleAgain1 exampleKeeper None S)).
Defined.


Lemma gatherKeys_counts_key_versions_witness :
  Datapath.gatherKeys (H := exampleCodes) exampleVbs ∅ exampleKeys
    = Some (3, ({[1 := 3; 6 := 1]},
                {[17 := {["k1"%string := ["doc1"; "doc2"]%string]};
                  18 := {["k2"%string := ["doc1"%string]]}]})) /\
  3 = Z.of_nat (length (Datapath.allKvs exampleVbs)).
Proof.
  assert (G : Datapath.gatherKeys (H := exampleCodes) exampleVbs ∅ exampleKeys
              = Some (3, ({[1 := 3; 6 := 1]},
                          {[17 := {["k1"%string := ["doc1"; "doc2"]%string]};
                            18 := {["k2"%string := ["doc1"%string]]}]})))
    by (vm_compute; reflexivity).
  exact (conj G
    (gatherKeys_counts_key_versions (H := exampleCodes) exampleVbs ∅ exampleKeys
       3 _ G ltac:(reflexivity))).
Defined.

Lemma countKeysAndDocs_any_order_witness :
  Permutation
    [("k2", ["doc1"]); ("k1", ["doc1"; "doc2"])]%string
    (map_to_list
       ({["k1" := ["doc1"; "doc2"]; "k2" := ["doc1"]]} : gmap string (list string))%string) /\
  Datapath.countKeysAndDocs [("k2", ["doc1"]); ("k1", ["doc1"; "doc2"])]%string
    = (Datapath.wrap_int 2, Datapath.wrap_int 3).
Proof.
  assert (P : Permutation
    [("k2", ["doc1"]); ("k1", ["doc1"; "doc2"])]%string
    (map_to_list
       ({["k1" := ["doc1"; "doc2"]; "k2" := ["doc1"]]} : gmap string (list string))%string)).
  { vm_compute. first [reflexivity | apply perm_swap]. }
  exact (conj P (countKeysAndDocs_any_order _ _ P)).
Defined.

Lemma gatherKeys_only_appends_witness :
  Datapath.gatherKeys (H := exampleCodes) exampleVbs ∅ exampleKeys
    = Some (3, ({[1 := 3; 6 := 1]},
                {[17 := {["k1"%string := ["doc1"; "doc2"]%string]};
                  18 := {["k2"%string := ["doc1"%string]]}]})) /\
  exampleKeys !! 17 = Some ∅ /\
  exists inner',
    ({[17 := {["k1"%string := ["doc1"; "doc2"]%string]};
       18 := {["k2"%string := ["doc1"%string]]}]}
       : gmap Z (gmap string (list string))) !! 17 = Some inner' /\
    Datapath.docsOf inner'
      = (Datapath.docsOf ∅
         + Datapath.upsertsFor (H := exampleCodes) 17 (Datapath.allKvs exampleVbs))%nat /\
    forall key docs, (∅ : gmap string (list string)) !! key = Some docs ->
      exists more, inner' !! key = Some (docs ++ more).
Proof.
  assert (G : Datapath.gatherKeys (H := exampleCodes) exampleVbs ∅ exampleKeys
              = Some (3, ({[1 := 3; 6 := 1]},
                          {[17 := {["k1"%string := ["doc1"; "doc2"]%string]};
                            18 := {["k2"%string := ["doc1"%string]]}]})))
    by (vm_compute; reflexivity).
  assert (L : exampleKeys !! 17 = Some ∅) by reflexivity.
  exact (conj G (conj L
    (gatherKeys_only_appends (H := exampleCodes) exampleVbs ∅ exampleKeys
       3 _ 17 ∅ G L))).
Defined.

Lemma gatherKeys_counts_commands_witness :
  Datapath.gatherKeys (H := exampleCodes) exampleVbs ∅ exampleKeys
    = Some (3, ({[1 := 3; 6 := 1]},
                {[17 := {["k1"%string := ["doc1"; "doc2"]%string]};
                  18 := {["k2"%string := ["doc1"%string]]}]})) /\
  ({[1 := 3; 6 := 1]} : gmap Z Z) !! 1
    = Datapath.countedUp (Datapath.occurrences 1 (Datapath.allKvs exampleVbs))
        ((∅ : gmap Z Z) !! 1).
Proof.
  assert (G : Datapath.gatherKeys (H := exampleCodes) exampleVbs ∅ exampleKeys
              = Some (3, ({[1 := 3; 6 := 1]},
                          {[17 := {["k1"%string := ["doc1"; "doc2"]%string]};
                            18 := {["k2"%string := ["doc1"%string]]}]})))
    by (vm_compute; reflexivity).
  exact (conj G
    (gatherKeys_counts_commands (H := exampleCodes) exampleVbs ∅ exampleKeys
       3 _ 1 G)).
Defined.

(** An upsert for an instance without an entry makes [gatherKeys] panic, and
    so does one whose index has no instance id. *)
Example gatherKeys_panics :
  Datapath.gatherKeys (H := exampleCodes) exampleVbs ∅ {[17 := ∅]} = None /\
  Datapath.gatherKeys (H := exampleCodes)
    [Datapath.mkVbKeyVersions [Datapath.mkKeyVersions "doc" [] ["k"%string] [1]]]
    ∅ exampleKeys = None.
Proof. split; vm_compute; reflexivity. Qed.

Lemma gatherKeys_returns_iff_witness :
  Forall (Datapath.upsertsResolve (H := exampleCodes) (dom exampleKeys))
    (Datapath.allKvs exampleVbs) /\
  is_Some (Datapath.gatherKeys (H := exampleCodes) exampleVbs ∅ exampleKeys).
Proof.
  assert (G : is_Some (Datapath.gatherKeys (H := exampleCodes) exampleVbs ∅
                         exampleKeys))
    by (vm_compute; eauto).
  exact (conj
    (proj1 (proj1 (gatherKeys_returns_iff (H := exampleCodes) exampleVbs ∅
                     exampleKeys)) G)
    G).
Defined.
